(** * Document-tracking server: ingestion, anomaly detection, alerting.

    A shallow embedding of [src/server.js] (with the table schema of
    [src/init-db.js]).  The SQLite tables are lists of rows in insertion
    order, the route handlers are computations in a state-and-exception
    monad over the server's world (database, live connections, what was
    sent to them), and Express's default error handler turns an uncaught
    exception into a 500 response.

    Conventions of the embedding:
    - a JavaScript string is a [string] of code units below 256;
    - an instant is its epoch-millisecond value in [Z]; the ISO-8601 text
      that the code stores ([toISOString]) and reads back
      ([new Date(text).getTime()]) denotes the same number, and the text
      order used by [ORDER BY timestamp] is the environment's [iso_leb];
    - [crypto.randomUUID()], the system clock, [geoip.lookup] and the local
      time zone are oracles of the environment [Env];
    - JSON bodies carry string identifiers and integer page counters, each
      possibly absent or null; a query parameter occurs at most once. *)

From Stdlib Require Import ZArith List String Ascii Bool Lia.
From Stdlib Require Import DecimalString DecimalPos Sorted Permutation.
Import ListNotations.

Local Open Scope string_scope.
Local Open Scope list_scope.
Local Open Scope Z_scope.

(* ================================================================= *)
(** ** JavaScript values as the handlers see them *)

(** A property of a request object: missing, [null], or a value. *)
Inductive js (A : Type) : Type :=
| Undefined
| Null
| Val (a : A).
Arguments Undefined {A}.
Arguments Null {A}.
Arguments Val {A} a.

(** [Boolean(s)] for a string. *)
Definition truthy (s : string) : bool := negb (String.eqb s "").

(** [x || null] on a string-valued property: every falsy value
    (missing, null, the empty string) becomes SQL NULL. *)
Definition or_null (x : js string) : option string :=
  match x with
  | Val s => if truthy s then Some s else None
  | _ => None
  end.

(** [x ?? null] on a number-valued property. *)
Definition nullish_null (x : js Z) : option Z :=
  match x with
  | Val n => Some n
  | _ => None
  end.

(** [${x}] inside a template literal. *)
Definition template (x : js string) : string :=
  match x with
  | Undefined => "undefined"
  | Null => "null"
  | Val s => s
  end.

Definition template_opt (x : option string) : string :=
  match x with
  | Some s => s
  | None => "null"
  end.

Definition string_of_Z (n : Z) : string := NilZero.string_of_int (Z.to_int n).

(** [hay.includes(needle)]. *)
Fixpoint includes (needle hay : string) : bool :=
  prefix needle hay ||
  match hay with
  | EmptyString => false
  | String _ rest => includes needle rest
  end.

(** [s.split(',')[0]]. *)
Fixpoint before_comma (s : string) : string :=
  match s with
  | EmptyString => EmptyString
  | String c rest => if Ascii.eqb c "," then EmptyString
                     else String c (before_comma rest)
  end.

(* ----------------------------------------------------------------- *)
(** *** [parseInt(text)] with no radix argument *)

Definition is_white_space (c : ascii) : bool :=
  let n := nat_of_ascii c in
  ((9 <=? n) && (n <=? 13) || (n =? 32) || (n =? 160))%nat.

Fixpoint skip_white_space (s : string) : string :=
  match s with
  | String c rest => if is_white_space c then skip_white_space rest else s
  | EmptyString => s
  end.

Definition digit_value (c : ascii) : option Z :=
  let n := Z.of_nat (nat_of_ascii c) in
  if (48 <=? n) && (n <=? 57) then Some (n - 48)
  else if (97 <=? n) && (n <=? 122) then Some (n - 87)
  else if (65 <=? n) && (n <=? 90) then Some (n - 55)
  else None.

(** The longest prefix of radix-[r] digits, as a number; [None] when the
    prefix is empty. *)
Fixpoint leading_digits (r : Z) (s : string) (acc : option Z) : option Z :=
  match s with
  | EmptyString => acc
  | String c rest =>
      match digit_value c with
      | Some d =>
          if d <? r
          then leading_digits r rest
                 (Some (match acc with Some a => a * r + d | None => d end))
          else acc
      | None => acc
      end
  end.

(** [None] is NaN.  The result is the mathematical integer; JavaScript
    rounds it to a double, which is exact below 2^53 and never moves a
    value across the Date range bound used below. *)
Definition parseInt (text : string) : option Z :=
  let s := skip_white_space text in
  let '(sign, s) :=
    match s with
    | String "-" rest => (-1, rest)
    | String "+" rest => (1, rest)
    | _ => (1, s)
    end in
  let '(radix, s) :=
    match s with
    | String "0" (String x rest) =>
        if Ascii.eqb x "x" || Ascii.eqb x "X" then (16, rest) else (10, s)
    | _ => (10, s)
    end in
  match leading_digits radix s None with
  | Some v => Some (sign * v)
  | None => None
  end.

(** [parseInt(q)] on a query parameter: a missing one is the text
    ["undefined"]. *)
Definition parseInt_param (q : js string) : option Z := parseInt (template q).

(** Largest magnitude of a valid Date time value. *)
Definition MAX_TIME : Z := 8640000000000000.

Definition valid_time (t : Z) : bool := (- MAX_TIME <=? t) && (t <=? MAX_TIME).

(* ================================================================= *)
(** ** Data model *)

Inductive EventType : Type :=
| pixel_beacon
| document_opened
| page_viewed
| document_downloaded
| document_printed
| document_forwarded
| copy_attempt.

Definition type_name (t : EventType) : string :=
  match t with
  | pixel_beacon => "pixel_beacon"
  | document_opened => "document_opened"
  | page_viewed => "page_viewed"
  | document_downloaded => "document_downloaded"
  | document_printed => "document_printed"
  | document_forwarded => "document_forwarded"
  | copy_attempt => "copy_attempt"
  end.

Definition EventType_eqb (a b : EventType) : bool :=
  match a, b with
  | pixel_beacon, pixel_beacon
  | document_opened, document_opened
  | page_viewed, page_viewed
  | document_downloaded, document_downloaded
  | document_printed, document_printed
  | document_forwarded, document_forwarded
  | copy_attempt, copy_attempt => true
  | _, _ => false
  end.

(** The object literal a handler passes to [saveEvent]. *)
Record EventInit : Type := {
  init_id : js string;
  init_type : EventType;
  init_documentId : js string;
  init_recipientId : js string;
  init_action : js string;
  init_pageNumber : js Z;
  init_timeSpent : js Z;
  init_timestamp : js Z;
  init_ipAddress : js string;
  init_location : js string;
  init_device : js string;
  init_userAgent : js string;
  init_risk : js string;
  init_watermarkId : js string;
  init_forwardedTo : js string;
  init_unauthorized : bool
}.

(** The [record] object that [saveEvent] builds, binds and returns. *)
Record Event : Type := {
  ev_id : string;
  ev_type : EventType;
  ev_documentId : js string;
  ev_recipientId : js string;
  ev_action : option string;
  ev_pageNumber : option Z;
  ev_timeSpent : option Z;
  ev_timestamp : Z;
  ev_ipAddress : option string;
  ev_location : option string;
  ev_device : option string;
  ev_userAgent : option string;
  ev_risk : option string;
  ev_watermarkId : option string;
  ev_forwardedTo : option string;
  ev_unauthorized : Z
}.

(** A row of table [events]; [city] and [country] are never written. *)
Record EventRow : Type := {
  row_id : string;
  row_type : EventType;
  row_documentId : string;
  row_recipientId : string;
  row_action : option string;
  row_pageNumber : option Z;
  row_timeSpent : option Z;
  row_timestamp : Z;
  row_ipAddress : option string;
  row_location : option string;
  row_city : option string;
  row_country : option string;
  row_device : option string;
  row_userAgent : option string;
  row_risk : option string;
  row_watermarkId : option string;
  row_forwardedTo : option string;
  row_unauthorized : Z;
  row_createdAt : Z
}.

Record AlertInit : Type := {
  ainit_id : js string;
  ainit_type : string;
  ainit_severity : string;
  ainit_message : string;
  ainit_eventId : js string;
  ainit_documentId : js string;
  ainit_recipientId : js string;
  ainit_requiresAction : Z
}.

Record Alert : Type := {
  al_id : string;
  al_type : string;
  al_severity : string;
  al_message : string;
  al_eventId : option string;
  al_documentId : option string;
  al_recipientId : option string;
  al_requiresAction : Z
}.

Record AlertRow : Type := {
  arow_alert : Alert;
  arow_createdAt : Z
}.

Record IncidentInit : Type := {
  iinit_id : js string;
  iinit_type : string;
  iinit_severity : string;
  iinit_documentId : js string;
  iinit_fromRecipient : js string;
  iinit_toRecipient : js string;
  iinit_status : js string;
  iinit_timestamp : js Z
}.

Record Incident : Type := {
  inc_id : string;
  inc_type : string;
  inc_severity : string;
  inc_documentId : js string;
  inc_fromRecipient : option string;
  inc_toRecipient : option string;
  inc_status : string;
  inc_timestamp : Z
}.

Record IncidentRow : Type := {
  irow_id : string;
  irow_type : string;
  irow_severity : string;
  irow_documentId : string;
  irow_fromRecipient : option string;
  irow_toRecipient : option string;
  irow_status : string;
  irow_timestamp : Z;
  irow_createdAt : Z
}.

(** A row of table [emails], written only by the mail sender. *)
Record EmailRow : Type := {
  em_id : string;
  em_documentId : string;
  em_recipientId : string;
  em_recipientEmail : string;
  em_recipientName : option string;
  em_subject : string;
  em_documentName : string;
  em_sentAt : Z;
  em_status : string
}.

Record Db : Type := {
  events : list EventRow;
  alerts : list AlertRow;
  incidents : list IncidentRow;
  emails : list EmailRow
}.

Record Finding : Type := {
  f_type : string;
  f_severity : string;
  f_message : string
}.

(** The JSON envelopes pushed to the dashboards, named by their [type]
    (CRITICAL_ALERT and UNAUTHORIZED_SHARE_ALERT also carry the constant
    [sound: true]). *)
Inductive Message : Type :=
| TRACKING_EVENT (event : Event)
| DOCUMENT_OPENED (event : Event)
| PAGE_VIEWED (event : Event)
| DOWNLOAD_ALERT (event : Event) (alert : Alert)
| CRITICAL_ALERT (event : Event) (alert : Alert)
| UNAUTHORIZED_SHARE_ALERT (event : Event) (incident : Incident) (alert : Alert)
| COPY_DETECTED (event : Event)
| ANOMALY_DETECTED (anomalies : list Finding) (event : Event)
| CONNECTED (totalEvents totalAlerts totalIncidents : nat)
            (recentEvents : list EventRow).

(** What happened inside the server, in order: rows written to
    [events] and runs of the anomaly evaluation (with the [anomalies]
    array it ended with). *)
Inductive LogEntry : Type :=
| Persisted (row : EventRow)
| Evaluated (event : Event) (anomalies : list Finding).

(** A socket of [wss.clients]: its number and whether it is OPEN. *)
Record Socket : Type := {
  sock_id : nat;
  sock_open : bool
}.

Record World : Type := {
  db : Db;
  wss_clients : list Socket;
  clients : list nat;
  sent : list (nat * Message);
  log : list LogEntry;
  ticks : nat;
  draws : nat
}.

Inductive GeoResult : Type :=
| GeoThrows
| GeoMiss
| GeoHit (city country : string).

(** The oracles: the [k]-th UUID drawn (a 36-character text, so never
    empty), the [k]-th reading of the clock, the geolocation database,
    the local hour of an instant, and the order of ISO-8601 texts. *)
Record Env : Type := {
  randomUUID : nat -> string;
  randomUUID_truthy : forall k, truthy (randomUUID k) = true;
  clock : nat -> Z;
  geoip_lookup : string -> GeoResult;
  getHours : Z -> Z;
  iso_leb : Z -> Z -> bool
}.

(* ================================================================= *)
(** ** The monad of handler code *)

Inductive Exn : Type :=
| RangeError
| DbError.

Inductive Outcome (A : Type) : Type :=
| Returned (a : A)
| Thrown (e : Exn).
Arguments Returned {A} a.
Arguments Thrown {A} e.

Definition M (A : Type) : Type := World -> Outcome A * World.

Definition ret {A} (a : A) : M A := fun w => (Returned a, w).

Definition bind {A B} (m : M A) (k : A -> M B) : M B :=
  fun w =>
    match m w with
    | (Returned a, w') => k a w'
    | (Thrown e, w') => (Thrown e, w')
    end.

Definition throw {A} (e : Exn) : M A := fun w => (Thrown e, w).

Definition get_world : M World := fun w => (Returned w, w).

Notation "x <- m ;; k" := (bind m (fun x => k))
  (at level 61, m at next level, right associativity).
Notation "m ;;; k" := (bind m (fun _ => k))
  (at level 61, right associativity).

(* ----------------------------------------------------------------- *)
(** *** Field updates of the world *)

Definition set_db (d : Db) (w : World) : World :=
  {| db := d; wss_clients := wss_clients w; clients := clients w;
     sent := sent w; log := log w; ticks := ticks w; draws := draws w |}.

Definition set_sockets (l : list Socket) (c : list nat) (w : World) : World :=
  {| db := db w; wss_clients := l; clients := c;
     sent := sent w; log := log w; ticks := ticks w; draws := draws w |}.

Definition add_sent (l : list (nat * Message)) (w : World) : World :=
  {| db := db w; wss_clients := wss_clients w; clients := clients w;
     sent := sent w ++ l; log := log w; ticks := ticks w; draws := draws w |}.

Definition add_log (e : LogEntry) (w : World) : World :=
  {| db := db w; wss_clients := wss_clients w; clients := clients w;
     sent := sent w; log := log w ++ [e]; ticks := ticks w; draws := draws w |}.

Definition next_tick (w : World) : World :=
  {| db := db w; wss_clients := wss_clients w; clients := clients w;
     sent := sent w; log := log w; ticks := S (ticks w); draws := draws w |}.

Definition next_draw (w : World) : World :=
  {| db := db w; wss_clients := wss_clients w; clients := clients w;
     sent := sent w; log := log w; ticks := ticks w; draws := S (draws w) |}.

Definition add_event (r : EventRow) (d : Db) : Db :=
  {| events := events d ++ [r]; alerts := alerts d;
     incidents := incidents d; emails := emails d |}.

Definition add_alert (r : AlertRow) (d : Db) : Db :=
  {| events := events d; alerts := alerts d ++ [r];
     incidents := incidents d; emails := emails d |}.

Definition add_incident (r : IncidentRow) (d : Db) : Db :=
  {| events := events d; alerts := alerts d;
     incidents := incidents d ++ [r]; emails := emails d |}.

(* ================================================================= *)
(** ** Helper functions of the server *)

(** The part of an incoming request that every handler reads. *)
Record Req : Type := {
  x_forwarded_for : js string;
  remoteAddress : js string;
  user_agent : js string
}.

Definition getClientIP (req : Req) : string :=
  let forwarded :=
    match x_forwarded_for req with
    | Val h => or_null (Val (before_comma h))
    | _ => None
    end in
  match forwarded with
  | Some ip => ip
  | None =>
      match or_null (remoteAddress req) with
      | Some ip => ip
      | None => "unknown"
      end
  end.

Definition parseBrowserInfo (userAgent : js string) : string :=
  match or_null userAgent with
  | None => "Unknown"
  | Some ua =>
      if includes "Chrome" ua then "Chrome"
      else if includes "Safari" ua && negb (includes "Chrome" ua) then "Safari"
      else if includes "Firefox" ua then "Firefox"
      else if includes "Edge" ua then "Edge"
      else "Unknown"
  end.

(** [[...new Set(xs)]]: the distinct members in order of first
    occurrence. *)
Fixpoint set_spread (seen xs : list string) : list string :=
  match xs with
  | [] => []
  | x :: rest =>
      if existsb (String.eqb x) seen then set_spread seen rest
      else x :: set_spread (x :: seen) rest
  end.

(** [xs.filter(Boolean)] on nullable strings. *)
Definition filter_Boolean (xs : list (option string)) : list string :=
  flat_map (fun x => match x with
                     | Some s => if truthy s then [s] else []
                     | None => []
                     end) xs.

Definition distinct_truthy (xs : list (option string)) : list string :=
  set_spread [] (filter_Boolean xs).

(** [ORDER BY key DESC]: a stable insertion sort, [geb a b] meaning that
    [a] may come before [b].  SQL leaves the order of rows with equal
    keys open; SQLite's sorter keeps them in the order of the scan, that
    is of insertion, and so does this one: a row moves behind another
    one only when its key is strictly smaller. *)
Fixpoint insert_desc {A} (geb : A -> A -> bool) (x : A) (l : list A) : list A :=
  match l with
  | [] => [x]
  | y :: rest =>
      if negb (geb x y) then y :: insert_desc geb x rest else x :: l
  end.

Definition order_by_desc {A} (geb : A -> A -> bool) (l : list A) : list A :=
  fold_right (insert_desc geb) [] l.

Definition count_rows {A} (l : list A) : nat := List.length l.

(** The anomaly findings of [checkForAnomalies], as a function of the
    rows it selected, the event, the event's local hour and the clock. *)
Definition unusual_location (recipientEvents : list EventRow) (event : Event)
  : list Finding :=
  let locations := distinct_truthy (map row_location recipientEvents) in
  match ev_location event with
  | Some loc =>
      if (3 <? List.length locations)%nat && truthy loc
         && negb (existsb (String.eqb loc) locations)
      then [ {| f_type := "UNUSUAL_LOCATION"; f_severity := "medium";
                f_message := "New location detected: " ++ loc |} ]
      else []
  | None => []
  end.

Definition unusual_time (hour : Z) : list Finding :=
  if (hour <? 6) || (22 <? hour)
  then [ {| f_type := "UNUSUAL_TIME"; f_severity := "low";
            f_message := "Access at " ++ string_of_Z hour
                         ++ ":00 - outside business hours" |} ]
  else [].

Definition recent_events (recipientEvents : list EventRow) (now : Z)
  : list EventRow :=
  let oneMinuteAgo := now - 60000 in
  filter (fun e => oneMinuteAgo <=? row_timestamp e) recipientEvents.

Definition rapid_access (recipientEvents : list EventRow) (now : Z)
  : list Finding :=
  let recentEvents := recent_events recipientEvents now in
  if (5 <? List.length recentEvents)%nat
  then [ {| f_type := "RAPID_ACCESS"; f_severity := "high";
            f_message := string_of_Z (Z.of_nat (List.length recentEvents))
              ++ " accesses in 1 minute - possible data exfiltration" |} ]
  else [].

(** The 1x1 transparent GIF of the pixel endpoint. *)
Definition pixel : list Byte.byte :=
  [ Byte.x47; Byte.x49; Byte.x46; Byte.x38; Byte.x39; Byte.x61; Byte.x01;
    Byte.x00; Byte.x01; Byte.x00; Byte.x80; Byte.x00; Byte.x00;
    Byte.xff; Byte.xff; Byte.xff; Byte.x00; Byte.x00; Byte.x00; Byte.x21;
    Byte.xf9; Byte.x04; Byte.x01; Byte.x0a; Byte.x00; Byte.x01;
    Byte.x00; Byte.x2c; Byte.x00; Byte.x00; Byte.x00; Byte.x00; Byte.x01;
    Byte.x00; Byte.x01; Byte.x00; Byte.x00; Byte.x02; Byte.x02;
    Byte.x4d; Byte.x01; Byte.x00; Byte.x3b ].

(** Summary objects of the query endpoints. *)
Record DocumentSummary : Type := {
  totalEvents : nat;
  opens : nat;
  downloads : nat;
  prints : nat;
  forwards : nat;
  copies : nat;
  locations : list string;
  devices : list string
}.

Record TrackingSummary : Type := {
  ts_totalEvents : nat;
  ts_incidents : nat;
  ts_riskLevel : string;
  ts_lastActivity : option Z;
  ts_recipients : list string;
  ts_locations : list string;
  ts_timeline : list EventRow
}.

Record EmailSummary : Type := {
  es_email : EmailRow;
  es_openCount : nat;
  es_lastOpenAt : option Z;
  es_downloadCount : nat;
  es_printCount : nat;
  es_forwardCount : nat
}.

Inductive Body : Type :=
| ImageGif (bytes : list Byte.byte)
| OpenAck (success : bool) (eventId : string)
| Ack (success : bool)
| PrintAck (success alertSent : bool)
| ForwardAck (success incidentCreated : bool)
| DocumentEvents (documentId : string) (rows : list EventRow)
                 (summary : DocumentSummary)
| RecipientEvents (recipientId : string) (total : nat)
                  (rows suspicious : list EventRow)
| DocumentTracking (documentId : string) (summary : TrackingSummary)
| EmailList (rows : list EmailSummary)
| AlertList (totalAlerts : nat) (rows : list AlertRow)
| IncidentList (totalIncidents : nat) (rows : list IncidentRow)
| Health (timestamp : Z) (nEvents nAlerts nIncidents connectedAdmins : nat)
| InternalServerError.

(** A response: status, the headers the handler sets itself, body. *)
Record Response : Type := {
  status : Z;
  headers : list (string * string);
  body : Body
}.

Definition json (b : Body) : Response :=
  {| status := 200; headers := []; body := b |}.

Definition error_500 : Response :=
  {| status := 500; headers := []; body := InternalServerError |}.

(* ----------------------------------------------------------------- *)
(** *** The object literals of the save functions *)

(** The [record] of [saveEvent], given the id and timestamp that the
    defaults produced. *)
Definition event_record (event : EventInit) (id : string) (timestamp : Z)
  : Event :=
  {| ev_id := id;
     ev_type := init_type event;
     ev_documentId := init_documentId event;
     ev_recipientId := init_recipientId event;
     ev_action := or_null (init_action event);
     ev_pageNumber := nullish_null (init_pageNumber event);
     ev_timeSpent := nullish_null (init_timeSpent event);
     ev_timestamp := timestamp;
     ev_ipAddress := or_null (init_ipAddress event);
     ev_location := or_null (init_location event);
     ev_device := or_null (init_device event);
     ev_userAgent := or_null (init_userAgent event);
     ev_risk := or_null (init_risk event);
     ev_watermarkId := or_null (init_watermarkId event);
     ev_forwardedTo := or_null (init_forwardedTo event);
     ev_unauthorized := if init_unauthorized event then 1 else 0 |}.

(** The row that the INSERT writes for a bound [record]. *)
Definition event_row (record : Event) (documentId recipientId : string)
  (createdAt : Z) : EventRow :=
  {| row_id := ev_id record;
     row_type := ev_type record;
     row_documentId := documentId;
     row_recipientId := recipientId;
     row_action := ev_action record;
     row_pageNumber := ev_pageNumber record;
     row_timeSpent := ev_timeSpent record;
     row_timestamp := ev_timestamp record;
     row_ipAddress := ev_ipAddress record;
     row_location := ev_location record;
     row_city := None;
     row_country := None;
     row_device := ev_device record;
     row_userAgent := ev_userAgent record;
     row_risk := ev_risk record;
     row_watermarkId := ev_watermarkId record;
     row_forwardedTo := ev_forwardedTo record;
     row_unauthorized := ev_unauthorized record;
     row_createdAt := createdAt |}.

Definition alert_record (alert : AlertInit) (id : string) : Alert :=
  {| al_id := id;
     al_type := ainit_type alert;
     al_severity := ainit_severity alert;
     al_message := ainit_message alert;
     al_eventId := or_null (ainit_eventId alert);
     al_documentId := or_null (ainit_documentId alert);
     al_recipientId := or_null (ainit_recipientId alert);
     al_requiresAction := if ainit_requiresAction alert =? 0 then 0 else 1 |}.

Definition incident_record (incident : IncidentInit) (id : string)
  (timestamp : Z) : Incident :=
  {| inc_id := id;
     inc_type := iinit_type incident;
     inc_severity := iinit_severity incident;
     inc_documentId := iinit_documentId incident;
     inc_fromRecipient := or_null (iinit_fromRecipient incident);
     inc_toRecipient := or_null (iinit_toRecipient incident);
     inc_status := match or_null (iinit_status incident) with
                   | Some s => s
                   | None => "open"
                   end;
     inc_timestamp := timestamp |}.

Definition incident_row (record : Incident) (documentId : string)
  (createdAt : Z) : IncidentRow :=
  {| irow_id := inc_id record;
     irow_type := inc_type record;
     irow_severity := inc_severity record;
     irow_documentId := documentId;
     irow_fromRecipient := inc_fromRecipient record;
     irow_toRecipient := inc_toRecipient record;
     irow_status := inc_status record;
     irow_timestamp := inc_timestamp record;
     irow_createdAt := createdAt |}.

(* ================================================================= *)
(** ** The server over an environment *)

Section Server.

Variable env : Env.

(** [Date.now()], also [new Date()]: one reading of the clock. *)
Definition Date_now : M Z :=
  fun w => (Returned (clock env (ticks w)), next_tick w).

Definition crypto_randomUUID : M string :=
  fun w => (Returned (randomUUID env (draws w)), next_draw w).

(** [new Date(t).toISOString()]: a RangeError outside the Date range. *)
Definition toISOString (t : Z) : M Z :=
  if valid_time t then ret t else throw RangeError.

(** SQLite's [CURRENT_TIMESTAMP]: the clock in whole seconds. *)
Definition CURRENT_TIMESTAMP : M Z :=
  now <- Date_now ;; ret (now / 1000).

Definition getLocationFromIP (ip : string) : string :=
  if String.eqb ip "unknown" then "Unknown Location"
  else
    match geoip_lookup env ip with
    | GeoHit city country =>
        (if truthy city then city else "Unknown") ++ ", "
        ++ (if truthy country then country else "Unknown")
    | GeoMiss => "Unknown Location"
    | GeoThrows => "Unknown Location"
    end.

Definition broadcastToAdmins (message : Message) : M unit :=
  fun w =>
    (Returned tt,
     add_sent (map (fun c => (sock_id c, message))
                   (filter sock_open (wss_clients w))) w).

Definition write_log (e : LogEntry) : M unit :=
  fun w => (Returned tt, add_log e w).

(* ----------------------------------------------------------------- *)
(** *** Prepared INSERT statements *)

(** [insertEventStmt.run(record)]: the statement is rejected when a
    NOT NULL column ([documentId], [recipientId]) gets no text or the
    primary key [id] is already in the table. *)
Definition insertEventStmt_run (record : Event) : M unit :=
  match ev_documentId record, ev_recipientId record with
  | Val documentId, Val recipientId =>
      w <- get_world ;;
      if existsb (String.eqb (ev_id record)) (map row_id (events (db w)))
      then throw DbError
      else
        createdAt <- CURRENT_TIMESTAMP ;;
        let row := event_row record documentId recipientId createdAt in
        (fun w => (Returned tt, set_db (add_event row (db w)) w)) ;;;
        write_log (Persisted row)
  | _, _ => throw DbError
  end.

(** [insertAlertStmt.run(record)]: primary key, and the foreign key
    [eventId REFERENCES events(id)]. *)
Definition insertAlertStmt_run (record : Alert) : M unit :=
  w <- get_world ;;
  let known :=
    match al_eventId record with
    | Some e => existsb (String.eqb e) (map row_id (events (db w)))
    | None => true
    end in
  if existsb (String.eqb (al_id record))
             (map (fun r => al_id (arow_alert r)) (alerts (db w)))
     || negb known
  then throw DbError
  else
    createdAt <- CURRENT_TIMESTAMP ;;
    let row := {| arow_alert := record; arow_createdAt := createdAt |} in
    fun w => (Returned tt, set_db (add_alert row (db w)) w).

Definition insertIncidentStmt_run (record : Incident) : M unit :=
  match inc_documentId record with
  | Val documentId =>
      w <- get_world ;;
      if existsb (String.eqb (inc_id record)) (map irow_id (incidents (db w)))
      then throw DbError
      else
        createdAt <- CURRENT_TIMESTAMP ;;
        let row := incident_row record documentId createdAt in
        fun w => (Returned tt, set_db (add_incident row (db w)) w)
  | _ => throw DbError
  end.

(** [x || crypto.randomUUID()]. *)
Definition or_randomUUID (x : js string) : M string :=
  match or_null x with
  | Some s => ret s
  | None => crypto_randomUUID
  end.

(** [x || new Date().toISOString()]. *)
Definition or_now (x : js Z) : M Z :=
  match x with
  | Val t => ret t
  | _ => Date_now
  end.

Definition saveEvent (event : EventInit) : M Event :=
  id <- or_randomUUID (init_id event) ;;
  timestamp <- or_now (init_timestamp event) ;;
  let record := event_record event id timestamp in
  insertEventStmt_run record ;;;
  ret record.

Definition saveAlert (alert : AlertInit) : M Alert :=
  id <- or_randomUUID (ainit_id alert) ;;
  let record := alert_record alert id in
  insertAlertStmt_run record ;;;
  ret record.

Definition saveIncident (incident : IncidentInit) : M Incident :=
  id <- or_randomUUID (iinit_id incident) ;;
  timestamp <- or_now (iinit_timestamp incident) ;;
  let record := incident_record incident id timestamp in
  insertIncidentStmt_run record ;;;
  ret record.

(* ----------------------------------------------------------------- *)
(** *** Anomaly evaluation *)

(** [SELECT * FROM events WHERE recipientId = ?]; a parameter that is
    not text is bound as NULL ([undefined] as well as [null]), which
    equals no row. *)
Definition select_events_of_recipient (recipientId : js string)
  : M (list EventRow) :=
  match recipientId with
  | Val r =>
      w <- get_world ;;
      ret (filter (fun e => String.eqb (row_recipientId e) r) (events (db w)))
  | Null => ret []
  | Undefined => ret []
  end.

Definition anomalies_of (recipientEvents : list EventRow) (event : Event)
  (now : Z) : list Finding :=
  unusual_location recipientEvents event
  ++ unusual_time (getHours env (ev_timestamp event))
  ++ rapid_access recipientEvents now.

Definition checkForAnomalies (event : Event) (recipientId : js string)
  : M unit :=
  recipientEvents <- select_events_of_recipient recipientId ;;
  now <- Date_now ;;
  let anomalies := anomalies_of recipientEvents event now in
  write_log (Evaluated event anomalies) ;;;
  if (0 <? List.length anomalies)%nat
  then broadcastToAdmins (ANOMALY_DETECTED anomalies event)
  else ret tt.

(* ----------------------------------------------------------------- *)
(** *** Tracking endpoints *)

(** The fields that the handlers destructure from [req.body]. *)
Record TrackBody : Type := {
  documentId : js string;
  recipientId : js string;
  watermarkId : js string;
  forwardedTo : js string;
  pageNumber : js Z;
  timeSpent : js Z
}.

(** [GET /api/track/pixel/:documentId/:recipientId?action=&ts=] *)
Definition track_pixel (req : Req) (documentId recipientId : string)
  (action ts : js string) : M Response :=
  let ip := getClientIP req in
  let location := getLocationFromIP ip in
  id <- crypto_randomUUID ;;
  t <- match parseInt_param ts with
       | Some n => if n =? 0 then Date_now else ret n
       | None => Date_now
       end ;;
  timestamp <- toISOString t ;;
  event <- saveEvent
    {| init_id := Val id;
       init_type := pixel_beacon;
       init_documentId := Val documentId;
       init_recipientId := Val recipientId;
       init_action := Val (match or_null action with
                           | Some a => a
                           | None => "viewed"
                           end);
       init_pageNumber := Undefined;
       init_timeSpent := Undefined;
       init_timestamp := Val timestamp;
       init_ipAddress := Val ip;
       init_location := Val location;
       init_device := Val (parseBrowserInfo (user_agent req));
       init_userAgent := user_agent req;
       init_risk := Undefined;
       init_watermarkId := Undefined;
       init_forwardedTo := Undefined;
       init_unauthorized := false |} ;;
  broadcastToAdmins (TRACKING_EVENT event) ;;;
  ret {| status := 200;
         headers := [ ("Content-Type", "image/gif");
                      ("Cache-Control", "no-cache, no-store, must-revalidate") ];
         body := ImageGif pixel |}.

(** [POST /api/track/document-open] *)
Definition track_document_open (req : Req) (b : TrackBody) : M Response :=
  let ip := getClientIP req in
  let location := getLocationFromIP ip in
  id <- crypto_randomUUID ;;
  timestamp <- Date_now ;;
  event <- saveEvent
    {| init_id := Val id;
       init_type := document_opened;
       init_documentId := documentId b;
       init_recipientId := recipientId b;
       init_action := Undefined;
       init_pageNumber := Undefined;
       init_timeSpent := Undefined;
       init_timestamp := Val timestamp;
       init_ipAddress := Val ip;
       init_location := Val location;
       init_device := Val (parseBrowserInfo (user_agent req));
       init_userAgent := user_agent req;
       init_risk := Val "low";
       init_watermarkId := watermarkId b;
       init_forwardedTo := Undefined;
       init_unauthorized := false |} ;;
  broadcastToAdmins (DOCUMENT_OPENED event) ;;;
  checkForAnomalies event (recipientId b) ;;;
  ret (json (OpenAck true (ev_id event))).

(** [POST /api/track/page-view] *)
Definition track_page_view (req : Req) (b : TrackBody) : M Response :=
  let ip := getClientIP req in
  let location := getLocationFromIP ip in
  id <- crypto_randomUUID ;;
  timestamp <- Date_now ;;
  event <- saveEvent
    {| init_id := Val id;
       init_type := page_viewed;
       init_documentId := documentId b;
       init_recipientId := recipientId b;
       init_action := Undefined;
       init_pageNumber := pageNumber b;
       init_timeSpent := timeSpent b;
       init_timestamp := Val timestamp;
       init_ipAddress := Val ip;
       init_location := Val location;
       init_device := Val (parseBrowserInfo (user_agent req));
       init_userAgent := user_agent req;
       init_risk := Undefined;
       init_watermarkId := Undefined;
       init_forwardedTo := Undefined;
       init_unauthorized := false |} ;;
  broadcastToAdmins (PAGE_VIEWED event) ;;;
  ret (json (Ack true)).

(** [POST /api/track/download] *)
Definition track_download (req : Req) (b : TrackBody) : M Response :=
  let ip := getClientIP req in
  let location := getLocationFromIP ip in
  id <- crypto_randomUUID ;;
  timestamp <- Date_now ;;
  event <- saveEvent
    {| init_id := Val id;
       init_type := document_downloaded;
       init_documentId := documentId b;
       init_recipientId := recipientId b;
       init_action := Undefined;
       init_pageNumber := Undefined;
       init_timeSpent := Undefined;
       init_timestamp := Val timestamp;
       init_ipAddress := Val ip;
       init_location := Val location;
       init_device := Val (parseBrowserInfo (user_agent req));
       init_userAgent := user_agent req;
       init_risk := Val "high";
       init_watermarkId := Undefined;
       init_forwardedTo := Undefined;
       init_unauthorized := false |} ;;
  alertId <- crypto_randomUUID ;;
  alert <- saveAlert
    {| ainit_id := Val alertId;
       ainit_type := "HIGH_RISK_ACTION";
       ainit_severity := "high";
       ainit_message := "⬇️ Document downloaded from "
                        ++ template_opt (ev_location event);
       ainit_eventId := Val (ev_id event);
       ainit_documentId := documentId b;
       ainit_recipientId := recipientId b;
       ainit_requiresAction := 0 |} ;;
  broadcastToAdmins (DOWNLOAD_ALERT event alert) ;;;
  ret (json (Ack true)).

(** [POST /api/track/print] *)
Definition track_print (req : Req) (b : TrackBody) : M Response :=
  let ip := getClientIP req in
  let location := getLocationFromIP ip in
  id <- crypto_randomUUID ;;
  timestamp <- Date_now ;;
  event <- saveEvent
    {| init_id := Val id;
       init_type := document_printed;
       init_documentId := documentId b;
       init_recipientId := recipientId b;
       init_action := Undefined;
       init_pageNumber := Undefined;
       init_timeSpent := Undefined;
       init_timestamp := Val timestamp;
       init_ipAddress := Val ip;
       init_location := Val location;
       init_device := Val (parseBrowserInfo (user_agent req));
       init_userAgent := user_agent req;
       init_risk := Val "critical";
       init_watermarkId := Undefined;
       init_forwardedTo := Undefined;
       init_unauthorized := false |} ;;
  alertId <- crypto_randomUUID ;;
  alert <- saveAlert
    {| ainit_id := Val alertId;
       ainit_type := "CRITICAL_ACTION";
       ainit_severity := "critical";
       ainit_message :=
         "🚨 CRITICAL: Document printed! Physical leak possible!";
       ainit_eventId := Val (ev_id event);
       ainit_documentId := documentId b;
       ainit_recipientId := recipientId b;
       ainit_requiresAction := 1 |} ;;
  broadcastToAdmins (CRITICAL_ALERT event alert) ;;;
  ret (json (PrintAck true true)).

(** [POST /api/track/forward] *)
Definition track_forward (req : Req) (b : TrackBody) : M Response :=
  let ip := getClientIP req in
  let location := getLocationFromIP ip in
  id <- crypto_randomUUID ;;
  timestamp <- Date_now ;;
  event <- saveEvent
    {| init_id := Val id;
       init_type := document_forwarded;
       init_documentId := documentId b;
       init_recipientId := recipientId b;
       init_action := Undefined;
       init_pageNumber := Undefined;
       init_timeSpent := Undefined;
       init_timestamp := Val timestamp;
       init_ipAddress := Val ip;
       init_location := Val location;
       init_device := Val (parseBrowserInfo (user_agent req));
       init_userAgent := user_agent req;
       init_risk := Val "critical";
       init_watermarkId := Undefined;
       init_forwardedTo := forwardedTo b;
       init_unauthorized := true |} ;;
  incidentId <- crypto_randomUUID ;;
  incidentTime <- Date_now ;;
  incident <- saveIncident
    {| iinit_id := Val incidentId;
       iinit_type := "UNAUTHORIZED_FORWARDING";
       iinit_severity := "CRITICAL";
       iinit_documentId := documentId b;
       iinit_fromRecipient := recipientId b;
       iinit_toRecipient := forwardedTo b;
       iinit_status := Val "open";
       iinit_timestamp := Val incidentTime |} ;;
  alertId <- crypto_randomUUID ;;
  alert <- saveAlert
    {| ainit_id := Val alertId;
       ainit_type := "UNAUTHORIZED_SHARE";
       ainit_severity := "critical";
       ainit_message := "🚨 Document forwarded to: "
                        ++ template (forwardedTo b);
       ainit_eventId := Val (ev_id event);
       ainit_documentId := documentId b;
       ainit_recipientId := recipientId b;
       ainit_requiresAction := 1 |} ;;
  broadcastToAdmins (UNAUTHORIZED_SHARE_ALERT event incident alert) ;;;
  ret (json (ForwardAck true true)).

(** [POST /api/track/copy] *)
Definition track_copy (req : Req) (b : TrackBody) : M Response :=
  let ip := getClientIP req in
  let location := getLocationFromIP ip in
  id <- crypto_randomUUID ;;
  timestamp <- Date_now ;;
  event <- saveEvent
    {| init_id := Val id;
       init_type := copy_attempt;
       init_documentId := documentId b;
       init_recipientId := recipientId b;
       init_action := Undefined;
       init_pageNumber := Undefined;
       init_timeSpent := Undefined;
       init_timestamp := Val timestamp;
       init_ipAddress := Val ip;
       init_location := Val location;
       init_device := Val (parseBrowserInfo (user_agent req));
       init_userAgent := user_agent req;
       init_risk := Val "medium";
       init_watermarkId := Undefined;
       init_forwardedTo := Undefined;
       init_unauthorized := false |} ;;
  broadcastToAdmins (COPY_DETECTED event) ;;;
  ret (json (Ack true)).

(* ----------------------------------------------------------------- *)
(** *** Query endpoints *)

Definition newer_event (a b : EventRow) : bool :=
  iso_leb env (row_timestamp b) (row_timestamp a).

Definition newer_incident (a b : IncidentRow) : bool :=
  iso_leb env (irow_timestamp b) (irow_timestamp a).

Definition newer_alert (a b : AlertRow) : bool :=
  arow_createdAt b <=? arow_createdAt a.

Definition count_type (t : EventType) (rows : list EventRow) : nat :=
  List.length (filter (fun e => EventType_eqb (row_type e) t) rows).

(** [GET /api/documents/:documentId/events] *)
Definition get_document_events (documentId : string) : M Response :=
  w <- get_world ;;
  let rows :=
    firstn 100
      (order_by_desc newer_event
         (filter (fun e => String.eqb (row_documentId e) documentId)
                 (events (db w)))) in
  let summary :=
    {| totalEvents := List.length rows;
       opens := count_type document_opened rows;
       downloads := count_type document_downloaded rows;
       prints := count_type document_printed rows;
       forwards := count_type document_forwarded rows;
       copies := count_type copy_attempt rows;
       locations := distinct_truthy (map row_location rows);
       devices := distinct_truthy (map row_device rows) |} in
  ret (json (DocumentEvents documentId rows summary)).

Definition is_suspicious (e : EventRow) : bool :=
  match row_risk e with
  | Some r => String.eqb r "high" || String.eqb r "critical"
  | None => false
  end.

(** [GET /api/recipients/:recipientId/events] *)
Definition get_recipient_events (recipientId : string) : M Response :=
  w <- get_world ;;
  let rows :=
    firstn 50
      (order_by_desc newer_event
         (filter (fun e => String.eqb (row_recipientId e) recipientId)
                 (events (db w)))) in
  ret (json (RecipientEvents recipientId (List.length rows) rows
               (filter is_suspicious rows))).

(** [GET /api/documents/:documentId/tracking-summary] *)
Definition get_tracking_summary (documentId : string) : M Response :=
  w <- get_world ;;
  let rows :=
    order_by_desc newer_event
      (filter (fun e => String.eqb (row_documentId e) documentId)
              (events (db w))) in
  let cases :=
    order_by_desc newer_incident
      (filter (fun i => String.eqb (irow_documentId i) documentId)
              (incidents (db w))) in
  ret (json (DocumentTracking documentId
    {| ts_totalEvents := List.length rows;
       ts_incidents := List.length cases;
       ts_riskLevel := if (0 <? List.length cases)%nat
                       then "CRITICAL" else "MEDIUM";
       ts_lastActivity := match rows with
                          | e :: _ => Some (row_timestamp e)
                          | [] => None
                          end;
       ts_recipients :=
         distinct_truthy (map (fun e => Some (row_recipientId e)) rows);
       ts_locations := distinct_truthy (map row_location rows);
       ts_timeline := firstn 50 rows |})).

(** [MAX(...)] over ISO texts; [None] is SQL NULL. *)
Definition max_iso (ts : list Z) : option Z :=
  fold_left (fun acc t =>
               match acc with
               | Some m => if iso_leb env m t then Some t else Some m
               | None => Some t
               end) ts None.

(** [GET /api/emails] *)
Definition get_emails : M Response :=
  w <- get_world ;;
  let summarize (e : EmailRow) :=
    let joined :=
      filter (fun ev => String.eqb (row_documentId ev) (em_documentId e)
                        && String.eqb (row_recipientId ev) (em_recipientId e))
             (events (db w)) in
    {| es_email := e;
       es_openCount := count_type document_opened joined;
       es_lastOpenAt :=
         max_iso (map row_timestamp
                    (filter (fun ev => EventType_eqb (row_type ev)
                                                     document_opened) joined));
       es_downloadCount := count_type document_downloaded joined;
       es_printCount := count_type document_printed joined;
       es_forwardCount := count_type document_forwarded joined |} in
  ret (json (EmailList
    (firstn 200
       (order_by_desc
          (fun a b => em_sentAt (es_email b) / 1000
                      <=? em_sentAt (es_email a) / 1000)
          (map summarize (emails (db w))))))).

(** [GET /api/alerts] *)
Definition get_alerts : M Response :=
  w <- get_world ;;
  let rows := firstn 100 (order_by_desc newer_alert (alerts (db w))) in
  let totalAlerts := count_rows (alerts (db w)) in
  ret (json (AlertList totalAlerts rows)).

(** [GET /api/incidents] *)
Definition get_incidents : M Response :=
  w <- get_world ;;
  let rows := order_by_desc newer_incident (incidents (db w)) in
  let totalIncidents := count_rows (incidents (db w)) in
  ret (json (IncidentList totalIncidents rows)).

(** [GET /api/health] *)
Definition get_health : M Response :=
  w <- get_world ;;
  now <- Date_now ;;
  ret (json (Health now (count_rows (events (db w)))
               (count_rows (alerts (db w)))
               (count_rows (incidents (db w)))
               (List.length (clients w)))).

(* ----------------------------------------------------------------- *)
(** *** Dashboard sockets *)

(** [wss.on('connection', ws => ...)] for a new socket [ws]. *)
Definition ws_connection (ws : nat) : M unit :=
  fun w =>
    let w1 :=
      set_sockets (wss_clients w ++ [ {| sock_id := ws; sock_open := true |} ])
                  (if existsb (Nat.eqb ws) (clients w) then clients w
                   else clients w ++ [ws]) w in
    let recentEvents :=
      firstn 20 (order_by_desc newer_event (events (db w1))) in
    (Returned tt,
     add_sent [ (ws, CONNECTED (count_rows (events (db w1)))
                       (count_rows (alerts (db w1)))
                       (count_rows (incidents (db w1)))
                       recentEvents) ] w1).

(** [ws.on('close')]: the socket leaves [wss.clients] and [clients]. *)
Definition ws_close (ws : nat) : M unit :=
  fun w =>
    (Returned tt,
     set_sockets (filter (fun s => negb (Nat.eqb (sock_id s) ws)) (wss_clients w))
                 (filter (fun c => negb (Nat.eqb c ws)) (clients w)) w).

(** [ws.on('error')]: only [clients.delete(ws)]. *)
Definition ws_error (ws : nat) : M unit :=
  fun w =>
    (Returned tt,
     set_sockets (wss_clients w)
                 (filter (fun c => negb (Nat.eqb c ws)) (clients w)) w).

(* ----------------------------------------------------------------- *)
(** *** Requests as Express serves them *)

(** Express answers an exception that escapes a handler with 500. *)
Definition express (handler : M Response) (w : World) : Response * World :=
  match handler w with
  | (Returned res, w') => (res, w')
  | (Thrown _, w') => (error_500, w')
  end.

(** The six structured-report endpoints. *)
Inductive Report : Type :=
| document_open
| page_view
| download
| print
| forward
| copy.

Definition track_report (r : Report) : Req -> TrackBody -> M Response :=
  match r with
  | document_open => track_document_open
  | page_view => track_page_view
  | download => track_download
  | print => track_print
  | forward => track_forward
  | copy => track_copy
  end.

Definition report_type (r : Report) : EventType :=
  match r with
  | document_open => document_opened
  | page_view => page_viewed
  | download => document_downloaded
  | print => document_printed
  | forward => document_forwarded
  | copy => copy_attempt
  end.

(** Everything that can happen to the server's world. *)
Inductive Op : Type :=
| GET_pixel (req : Req) (documentId recipientId : string)
            (action ts : js string)
| POST_track (r : Report) (req : Req) (b : TrackBody)
| GET_document_events (documentId : string)
| GET_recipient_events (recipientId : string)
| GET_tracking_summary (documentId : string)
| GET_emails
| GET_alerts
| GET_incidents
| GET_health
| WS_connection (ws : nat)
| WS_close (ws : nat)
| WS_error (ws : nat).

Definition socket_event (m : M unit) (w : World) : option Response * World :=
  (None, snd (m w)).

Definition http (h : M Response) (w : World) : option Response * World :=
  let '(res, w') := express h w in (Some res, w').

Definition run (op : Op) : World -> option Response * World :=
  match op with
  | GET_pixel req d r action ts => http (track_pixel req d r action ts)
  | POST_track r req b => http (track_report r req b)
  | GET_document_events d => http (get_document_events d)
  | GET_recipient_events r => http (get_recipient_events r)
  | GET_tracking_summary d => http (get_tracking_summary d)
  | GET_emails => http get_emails
  | GET_alerts => http get_alerts
  | GET_incidents => http get_incidents
  | GET_health => http get_health
  | WS_connection ws => socket_event (ws_connection ws)
  | WS_close ws => socket_event (ws_close ws)
  | WS_error ws => socket_event (ws_error ws)
  end.

(** One step, and any number of steps, of the running server. *)
Definition step (w w' : World) : Prop := exists op, snd (run op w) = w'.

Inductive steps : World -> World -> Prop :=
| steps_refl : forall w, steps w w
| steps_next : forall w w' w'', steps w w' -> step w' w'' -> steps w w''.

End Server.

(** The freshly initialised database and server. *)
Definition empty_db : Db :=
  {| events := []; alerts := []; incidents := []; emails := [] |}.

Definition boot : World :=
  {| db := empty_db; wss_clients := []; clients := []; sent := [];
     log := []; ticks := 0; draws := 0 |}.

(* ================================================================= *)
(** ** Notions used in the statements *)

(** [grows proj Q m]: running [m] only appends to the list [proj] of
    the world, and everything it appends satisfies [Q] -- also when [m]
    ends in an exception. *)
Definition grows {X A} (proj : World -> list X) (Q : X -> Prop) (m : M A)
  : Prop :=
  forall w, exists added,
    proj (snd (m w)) = proj w ++ added /\ Forall Q added.

Definition stored_events (w : World) : list EventRow := events (db w).


(** The risk tiers of the data model, and the tier that the specification
    assigns to each event type. *)
Inductive RiskTier : Type :=
| tier_none
| tier_low
| tier_medium
| tier_high
| tier_critical.

Definition spec_risk (t : EventType) : RiskTier :=
  match t with
  | document_opened => tier_low
  | copy_attempt => tier_medium
  | document_downloaded => tier_high
  | document_printed => tier_critical
  | document_forwarded => tier_critical
  | pixel_beacon => tier_none
  | page_viewed => tier_none
  end.

(** The tier that a stored [risk] column denotes; an event stored
    without a risk (SQL NULL) has tier none. *)
Definition stored_tier (risk : option string) : option RiskTier :=
  match risk with
  | None => Some tier_none
  | Some s =>
      if String.eqb s "low" then Some tier_low
      else if String.eqb s "medium" then Some tier_medium
      else if String.eqb s "high" then Some tier_high
      else if String.eqb s "critical" then Some tier_critical
      else None
  end.

Definition risk_as_specified (row : EventRow) : Prop :=
  stored_tier (row_risk row) = Some (spec_risk (row_type row)).

(* ================================================================= *)
(** ** A concrete environment and concrete requests *)

Definition demo_uuid (k : nat) : string :=
  "uuid-" ++ NilZero.string_of_uint (Nat.to_uint k).

Definition demo_geo (ip : string) : GeoResult :=
  if String.eqb ip "198.51.100.1" then GeoHit "Oslo" "NO"
  else if String.eqb ip "198.51.100.2" then GeoHit "Paris" "FR"
  else if String.eqb ip "198.51.100.3" then GeoHit "Lima" "PE"
  else if String.eqb ip "198.51.100.4" then GeoHit "Pune" "IN"
  else if String.eqb ip "198.51.100.5" then GeoHit "Tokyo" "JP"
  else GeoMiss.

(** UUIDs are numbered, the clock starts at 2023-11-15 12:00:00 UTC
    and advances one second per reading, local time is UTC, and all
    stored instants have four-digit years. *)
Definition demo_env : Env :=
  {| randomUUID := demo_uuid;
     randomUUID_truthy := fun _ => eq_refl;
     clock := fun k => 1700049600000 + 1000 * Z.of_nat k;
     geoip_lookup := demo_geo;
     getHours := fun t => (t / 3600000) mod 24;
     iso_leb := Z.leb |}.

Definition from_ip (ip : string) : Req :=
  {| x_forwarded_for := Val ip;
     remoteAddress := Undefined;
     user_agent := Val "Mozilla/5.0 Chrome/120.0" |}.

Definition report_body (d r : js string) : TrackBody :=
  {| documentId := d; recipientId := r; watermarkId := Undefined;
     forwardedTo := Undefined; pageNumber := Undefined;
     timeSpent := Undefined |}.

Definition forward_body (d r to : js string) : TrackBody :=
  {| documentId := d; recipientId := r; watermarkId := Undefined;
     forwardedTo := to; pageNumber := Undefined; timeSpent := Undefined |}.

Definition run_all (env : Env) (ops : list Op) (w : World) : World :=
  fold_left (fun w op => snd (run env op w)) ops w.

(** Recipient r1 has been seen at four places... *)
Definition seen_at_four_places : World :=
  run_all demo_env
    [ GET_pixel (from_ip "198.51.100.1") "d1" "r1" Undefined Undefined;
      GET_pixel (from_ip "198.51.100.2") "d1" "r1" Undefined Undefined;
      GET_pixel (from_ip "198.51.100.3") "d1" "r1" Undefined Undefined;
      GET_pixel (from_ip "198.51.100.4") "d1" "r1" Undefined Undefined ]
    boot.

(** ... and now opens the document at a fifth. *)
Definition open_at_fifth_place : Op :=
  POST_track document_open (from_ip "198.51.100.5")
             (report_body (Val "d1") (Val "r1")).

(** Six beacons whose [ts] parameter is 2100-01-01. *)
Definition beacon_from_2100 : Op :=
  GET_pixel (from_ip "198.51.100.1") "d1" "r1" Undefined (Val "4102444800000").

Definition six_beacons_from_2100 : World :=
  run_all demo_env (repeat beacon_from_2100 6) boot.

Definition open_at_first_place : Op :=
  POST_track document_open (from_ip "198.51.100.1")
             (report_body (Val "d1") (Val "r1")).

(** 101 reported forwards. *)
Definition forward_report : Op :=
  POST_track forward (from_ip "198.51.100.1")
             (forward_body (Val "d1") (Val "r1") (Val "ext@x.com")).

Definition after_101_forwards : World :=
  run_all demo_env (repeat forward_report 101) boot.

Definition forward_with_empty_recipient : Op :=
  POST_track forward (from_ip "198.51.100.1")
             (forward_body (Val "d1") (Val "") (Val "ext@x.com")).

Definition open_without_documentId : Op :=
  POST_track document_open (from_ip "198.51.100.1")
             (report_body Undefined (Val "r1")).

Definition download_report : Op :=
  POST_track download (from_ip "198.51.100.1")
             (report_body (Val "d1") (Val "r1")).

Definition beacon_beyond_date_range : Op :=
  GET_pixel (from_ip "198.51.100.1") "d1" "r1" Undefined
            (Val "8640000000000001").

Definition beacon_with_ts (ts : js string) : Op :=
  GET_pixel (from_ip "198.51.100.1") "d1" "r1" Undefined ts.

(* ================================================================= *)
(** ** More notions used in the statements *)

(** The stored row is the bound [record]. *)
Definition row_of (record : Event) (row : EventRow) : Prop :=
  exists createdAt,
    row = event_row record (row_documentId row) (row_recipientId row) createdAt
    /\ ev_documentId record = Val (row_documentId row)
    /\ ev_recipientId record = Val (row_recipientId row).

Definition is_evaluation (e : LogEntry) : bool :=
  match e with
  | Evaluated _ _ => true
  | Persisted _ => false
  end.

Definition has_finding (type : string) (anomalies : list Finding) : bool :=
  existsb (fun f => String.eqb (f_type f) type) anomalies.

(** The findings of every evaluation in a stretch of the log. *)
Definition reported (type : string) (l : list LogEntry) : bool :=
  existsb (fun e => match e with
                    | Evaluated _ anomalies => has_finding type anomalies
                    | Persisted _ => false
                    end) l.

Definition rows_of_recipient (r : string) (w : World) : list EventRow :=
  filter (fun e => String.eqb (row_recipientId e) r) (events (db w)).

(** An instant [t] lies in the trailing 60 seconds of [now]. *)
Definition in_trailing_minute (now t : Z) : bool :=
  (now - 60000 <=? t) && (t <=? now).

(** An instant [t] is not older than 60 seconds at [now]. *)
Definition not_older_than_a_minute (now t : Z) : bool := now - 60000 <=? t.

(** A property is absent from the body, or null. *)
Definition missing {A} (x : js A) : Prop :=
  match x with
  | Val _ => False
  | _ => True
  end.

Definition client_error (res : Response) : bool :=
  (400 <=? status res) && (status res <? 500).

(** The time value that the pixel endpoint turns into the event's
    timestamp: the [ts] parameter when it parses to a nonzero number,
    else the clock. *)
Definition beacon_time (env : Env) (ts : js string) (w : World) : Z :=
  match parseInt_param ts with
  | Some n => if n =? 0 then clock env (ticks w) else n
  | None => clock env (ticks w)
  end.

(** The pixel endpoint's event can be built and stored: its time value
    is a valid date and its id is not yet a key of [events]. *)
Definition beacon_storable (env : Env) (ts : js string) (w : World) : bool :=
  valid_time (beacon_time env ts w)
  && negb (existsb (String.eqb (randomUUID env (draws w)))
                   (map row_id (events (db w)))).

Definition pixel_response : Response :=
  {| status := 200;
     headers := [ ("Content-Type", "image/gif");
                  ("Cache-Control", "no-cache, no-store, must-revalidate") ];
     body := ImageGif pixel |}.

(** An id is not yet a key of a table. *)
Definition unused (id : string) (keys : list string) : Prop :=
  existsb (String.eqb id) keys = false.

(** The rows of a listing response. *)
Definition listed_incidents (res : option Response) : list IncidentRow :=
  match res with
  | Some {| body := IncidentList _ rows |} => rows
  | _ => []
  end.

Definition listed_alerts (res : option Response) : list AlertRow :=
  match res with
  | Some {| body := AlertList _ rows |} => rows
  | _ => []
  end.

(** The last evaluation recorded in the log. *)
Definition last_evaluation (l : list LogEntry)
  : option (Event * list Finding) :=
  fold_left (fun acc e => match e with
                          | Evaluated event anomalies => Some (event, anomalies)
                          | Persisted _ => acc
                          end) l None.

(* ================================================================= *)
(** ** Notions for further properties of the server *)

Definition stored_alerts (w : World) : list AlertRow := alerts (db w).

Definition stored_incidents (w : World) : list IncidentRow := incidents (db w).

Definition browser_labels : list string :=
  [ "Chrome"; "Safari"; "Firefox"; "Edge"; "Unknown" ].

(** The enrichment columns of a stored event: address, location and
    device are present and not empty; city and country stay NULL. *)
Definition enriched (row : EventRow) : Prop :=
  (exists ip, row_ipAddress row = Some ip /\ ip <> "")
  /\ (exists loc, row_location row = Some loc /\ loc <> "")
  /\ (exists dev, row_device row = Some dev /\ In dev browser_labels)
  /\ row_city row = None
  /\ row_country row = None.

(** The request that a tracking operation carries. *)
Definition request_of (op : Op) : option Req :=
  match op with
  | GET_pixel req _ _ _ _ => Some req
  | POST_track _ req _ => Some req
  | _ => None
  end.

(** A request that names no client: no x-forwarded-for header, or one
    whose first entry is empty, and no socket address. *)
Definition no_address (req : Req) : Prop :=
  match x_forwarded_for req with
  | Val h => before_comma h = ""
  | _ => True
  end
  /\ or_null (remoteAddress req) = None.

(** The enrichment columns as the three helpers compute them from the
    request, and the texts they fall back to: "unknown" without an
    address, "Unknown Location" for that address and for a lookup that
    finds nothing or throws, "Unknown" without a user agent. *)
Definition enriched_from (env : Env) (req : Req) (row : EventRow) : Prop :=
  let ip := getClientIP req in
  row_ipAddress row = Some ip
  /\ row_location row = Some (getLocationFromIP env ip)
  /\ row_device row = Some (parseBrowserInfo (user_agent req))
  /\ (no_address req -> row_ipAddress row = Some "unknown")
  /\ (ip = "unknown" \/ geoip_lookup env ip = GeoMiss
      \/ geoip_lookup env ip = GeoThrows ->
      row_location row = Some "Unknown Location")
  /\ (or_null (user_agent req) = None -> row_device row = Some "Unknown").

(** The type-specific columns of a stored event are filled only on
    rows of their type. *)
Definition payload_by_type (row : EventRow) : Prop :=
  (row_unauthorized row = 1 <-> row_type row = document_forwarded)
  /\ (row_unauthorized row = 0 <-> row_type row <> document_forwarded)
  /\ (row_action row <> None <-> row_type row = pixel_beacon)
  /\ (row_pageNumber row <> None -> row_type row = page_viewed)
  /\ (row_timeSpent row <> None -> row_type row = page_viewed)
  /\ (row_forwardedTo row <> None -> row_type row = document_forwarded)
  /\ (row_watermarkId row <> None -> row_type row = document_opened).

(** The alert a report of a given kind writes, if it writes one. *)
Definition alert_of_report (rep : Report) (row : AlertRow) : Prop :=
  let a := arow_alert row in
  al_message a <> ""
  /\ match rep with
     | download => al_type a = "HIGH_RISK_ACTION" /\ al_severity a = "high"
                   /\ al_requiresAction a = 0
     | print => al_type a = "CRITICAL_ACTION" /\ al_severity a = "critical"
                /\ al_requiresAction a = 1
     | forward => al_type a = "UNAUTHORIZED_SHARE" /\ al_severity a = "critical"
                  /\ al_requiresAction a = 1
     | _ => False
     end.

(** The incident a forward report writes, if it writes one. *)
Definition incident_of_forward (b : TrackBody) (row : IncidentRow) : Prop :=
  irow_type row = "UNAUTHORIZED_FORWARDING"
  /\ irow_severity row = "CRITICAL"
  /\ irow_status row = "open"
  /\ documentId b = Val (irow_documentId row)
  /\ irow_fromRecipient row = or_null (recipientId b)
  /\ irow_toRecipient row = or_null (forwardedTo b).

(** The primary keys of the three tables. *)
Definition keys_unique (d : Db) : Prop :=
  NoDup (map row_id (events d))
  /\ NoDup (map (fun a => al_id (arow_alert a)) (alerts d))
  /\ NoDup (map irow_id (incidents d)).

(** The foreign key of [alerts]: an alert's [eventId], when not NULL,
    is the id of a stored event. *)
Definition alerts_reference_events (d : Db) : Prop :=
  forall a e,
    In a (alerts d) -> al_eventId (arow_alert a) = Some e ->
    In e (map row_id (events d)).

(** Running [m] keeps a property of the database, also when it throws
    half way. *)
Definition preserves (I : Db -> Prop) {A} (m : M A) : Prop :=
  forall w, I (db w) -> I (db (snd (m w))).

(** An id generator whose odd draws all give the same id. *)
Definition repeating_uuid (k : nat) : string :=
  if Nat.even k then demo_uuid k else "alert-id".

Definition repeating_env : Env :=
  {| randomUUID := repeating_uuid;
     randomUUID_truthy :=
       fun k => match Nat.even k as e
                      return truthy (if e then demo_uuid k else "alert-id") = true
                with
                | true => eq_refl
                | false => eq_refl
                end;
     clock := clock demo_env;
     geoip_lookup := demo_geo;
     getHours := getHours demo_env;
     iso_leb := Z.leb |}.

(** The number that a run of decimal digits denotes after the digits
    already read came to [acc]. *)
Fixpoint decimal_value (d : Decimal.uint) (acc : Z) : Z :=
  match d with
  | Decimal.Nil => acc
  | Decimal.D0 d => decimal_value d (acc * 10 + 0)
  | Decimal.D1 d => decimal_value d (acc * 10 + 1)
  | Decimal.D2 d => decimal_value d (acc * 10 + 2)
  | Decimal.D3 d => decimal_value d (acc * 10 + 3)
  | Decimal.D4 d => decimal_value d (acc * 10 + 4)
  | Decimal.D5 d => decimal_value d (acc * 10 + 5)
  | Decimal.D6 d => decimal_value d (acc * 10 + 6)
  | Decimal.D7 d => decimal_value d (acc * 10 + 7)
  | Decimal.D8 d => decimal_value d (acc * 10 + 8)
  | Decimal.D9 d => decimal_value d (acc * 10 + 9)
  end.

(** The risk level that the tracking summary of a document reports. *)
Definition reported_risk_level (env : Env) (d : string) (w : World)
  : option string :=
  match fst (run env (GET_tracking_summary d) w) with
  | Some {| body := DocumentTracking _ s |} => Some (ts_riskLevel s)
  | _ => None
  end.

Definition of_document (d : string) (e : EventRow) : bool :=
  String.eqb (row_documentId e) d.

Definition of_recipient (r : string) (e : EventRow) : bool :=
  String.eqb (row_recipientId e) r.

(** The event types that the email summary does not count. *)
Definition uncounted (row : EventRow) : Prop :=
  row_type row = pixel_beacon \/ row_type row = page_viewed
  \/ row_type row = copy_attempt.

(** The read-only endpoints. *)
Definition is_query (op : Op) : bool :=
  match op with
  | GET_document_events _ | GET_recipient_events _ | GET_tracking_summary _
  | GET_emails | GET_alerts | GET_incidents | GET_health => true
  | _ => false
  end.

(** The sockets of [wss.clients] that are OPEN. *)
Definition open_sockets (w : World) : list nat :=
  map sock_id (filter sock_open (wss_clients w)).

(** Running [m] leaves the sockets alone and sends only to open ones. *)
Definition speaks_to_open {A} (m : M A) : Prop :=
  forall w,
    wss_clients (snd (m w)) = wss_clients w
    /\ clients (snd (m w)) = clients w
    /\ exists added,
         sent (snd (m w)) = sent w ++ added
         /\ Forall (fun p => In (fst p) (open_sockets w)) added.

(** The set [clients]: no socket twice, and only sockets that the
    WebSocket server holds. *)
Definition registry_ok (w : World) : Prop :=
  NoDup (clients w)
  /\ incl (clients w) (map sock_id (wss_clients w)).

Definition is_socket_event (op : Op) : bool :=
  match op with
  | WS_connection _ | WS_close _ | WS_error _ => true
  | _ => false
  end.

(** Concrete states for the examples of the further properties. *)
Definition after_one_download : World :=
  snd (run demo_env download_report boot).

Definition after_one_download_repeating : World :=
  snd (run repeating_env download_report boot).

Definition one_dashboard : World :=
  snd (run demo_env (WS_connection 7) boot).

Definition proxied_request : Req :=
  {| x_forwarded_for := Val "203.0.113.9, 10.0.0.1";
     remoteAddress := Val "10.0.0.2";
     user_agent := Undefined |}.
(* ================================================================= *)
(** ** Reasoning about handler code *)

Section Grows.

Context {X : Type} (proj : World -> list X) (Q : X -> Prop).

Lemma grows_same {A} (m : M A) :
  (forall w, proj (snd (m w)) = proj w) -> grows proj Q m.
Proof.
  intros Hm w. exists []. rewrite Hm, app_nil_r. split; [reflexivity|constructor].
Qed.

Lemma grows_ret {A} (a : A) : grows proj Q (ret a).
Proof. apply grows_same. reflexivity. Qed.

Lemma grows_throw {A} (e : Exn) : grows proj Q (@throw A e).
Proof. apply grows_same. reflexivity. Qed.

Lemma grows_get_world : grows proj Q get_world.
Proof. apply grows_same. reflexivity. Qed.

Lemma grows_bind {A B} (m : M A) (k : A -> M B) :
  grows proj Q m -> (forall a, grows proj Q (k a)) -> grows proj Q (bind m k).
Proof.
  intros Hm Hk w. unfold bind.
  destruct (Hm w) as [l1 [E1 F1]].
  destruct (m w) as [[a|e] w1]; simpl in E1.
  - destruct (Hk a w1) as [l2 [E2 F2]].
    exists (l1 ++ l2). rewrite E2, E1, app_assoc. split; [reflexivity|].
    apply Forall_app. split; assumption.
  - exists l1. split; assumption.
Qed.

Lemma grows_if {A} (c : bool) (m1 m2 : M A) :
  grows proj Q m1 -> grows proj Q m2 -> grows proj Q (if c then m1 else m2).
Proof. destruct c; trivial. Qed.

End Grows.

Lemma grows_weaken {X A} (proj : World -> list X) (P Q : X -> Prop) (m : M A) :
  (forall x, P x -> Q x) -> grows proj P m -> grows proj Q m.
Proof.
  intros HPQ Hm w. destruct (Hm w) as [l [E F]].
  exists l. split; [assumption|]. eapply Forall_impl; eassumption.
Qed.

Section Primitives.

Variable env : Env.
Context {X : Type} (proj : World -> list X) (Q : X -> Prop).

(** The projection ignores the clock, the id generator and the
    sockets. *)
Hypothesis proj_tick : forall w, proj (next_tick w) = proj w.
Hypothesis proj_draw : forall w, proj (next_draw w) = proj w.
Hypothesis proj_sent : forall l w, proj (add_sent l w) = proj w.

Lemma grows_Date_now : grows proj Q (Date_now env).
Proof. apply grows_same. intro w. apply proj_tick. Qed.

Lemma grows_randomUUID : grows proj Q (crypto_randomUUID env).
Proof. apply grows_same. intro w. apply proj_draw. Qed.

Lemma grows_toISOString t : grows proj Q (toISOString t).
Proof. unfold toISOString. apply grows_if; [apply grows_ret|apply grows_throw]. Qed.

Lemma grows_broadcast msg : grows proj Q (broadcastToAdmins msg).
Proof. apply grows_same. intro w. apply proj_sent. Qed.

Lemma grows_or_randomUUID x : grows proj Q (or_randomUUID env x).
Proof.
  unfold or_randomUUID. destruct (or_null x);
    [apply grows_ret|apply grows_randomUUID].
Qed.

Lemma grows_or_now x : grows proj Q (or_now env x).
Proof. destruct x; simpl; try apply grows_Date_now. apply grows_ret. Qed.

End Primitives.

(** Walk through the binds of a handler, closing the leaves with the
    lemmas above and with [leaf]. *)
Ltac grow_with leaf :=
  repeat first
    [ apply grows_ret
    | apply grows_throw
    | apply grows_get_world
    | apply grows_Date_now; reflexivity
    | apply grows_randomUUID; reflexivity
    | apply grows_toISOString
    | apply grows_broadcast; reflexivity
    | leaf
    | apply grows_bind; [|intro]
    | apply grows_if
    | match goal with
      | |- grows _ _ (match ?x with _ => _ end) => destruct x
      end ].

(* ================================================================= *)
(** ** The events table only grows *)

Section EventsGrow.

Variable env : Env.

Local Abbreviation quiet := (grows stored_events (fun _ => False)).

Ltac nothing_added :=
  exists []; rewrite app_nil_r; split; [reflexivity | constructor].

Lemma insertEvent_grows (record : Event) :
  grows stored_events
        (fun row => row_type row = ev_type record
                    /\ row_risk row = ev_risk record)
        (insertEventStmt_run env record).
Proof.
  intro w. unfold insertEventStmt_run.
  destruct (ev_documentId record) as [| |d]; try nothing_added.
  destruct (ev_recipientId record) as [| |r]; try nothing_added.
  unfold bind, get_world.
  destruct (existsb _ _); [nothing_added|].
  cbn. eexists [_]. split; [reflexivity|].
  constructor; [split; reflexivity | constructor].
Qed.

Lemma insertAlert_quiet (record : Alert) : quiet (insertAlertStmt_run env record).
Proof.
  intro w. unfold insertAlertStmt_run, bind, get_world.
  destruct (_ || _); nothing_added.
Qed.

Lemma insertIncident_quiet (record : Incident) :
  quiet (insertIncidentStmt_run env record).
Proof.
  intro w. unfold insertIncidentStmt_run.
  destruct (inc_documentId record); try nothing_added.
  unfold bind, get_world. destruct (existsb _ _); nothing_added.
Qed.

Lemma write_log_quiet e : quiet (write_log e).
Proof. apply grows_same. reflexivity. Qed.

Lemma saveEvent_grows (event : EventInit) :
  grows stored_events
        (fun row => row_type row = init_type event
                    /\ row_risk row = or_null (init_risk event))
        (saveEvent env event).
Proof.
  unfold saveEvent.
  apply grows_bind; [apply grows_or_randomUUID; reflexivity|]. intro id.
  apply grows_bind; [apply grows_or_now; reflexivity|]. intro t.
  apply grows_bind; [|intro; apply grows_ret].
  eapply grows_weaken; [|apply insertEvent_grows]. trivial.
Qed.

Lemma saveAlert_quiet (alert : AlertInit) : quiet (saveAlert env alert).
Proof.
  unfold saveAlert.
  apply grows_bind; [apply grows_or_randomUUID; reflexivity|]. intro id.
  apply grows_bind; [apply insertAlert_quiet|intro; apply grows_ret].
Qed.

Lemma saveIncident_quiet (incident : IncidentInit) :
  quiet (saveIncident env incident).
Proof.
  unfold saveIncident.
  apply grows_bind; [apply grows_or_randomUUID; reflexivity|]. intro id.
  apply grows_bind; [apply grows_or_now; reflexivity|]. intro t.
  apply grows_bind; [apply insertIncident_quiet|intro; apply grows_ret].
Qed.

Lemma select_quiet r : quiet (select_events_of_recipient r).
Proof.
  destruct r; simpl; try apply grows_ret; try apply grows_throw.
  apply grows_bind; [apply grows_get_world|intro; apply grows_ret].
Qed.

Lemma checkForAnomalies_quiet event r : quiet (checkForAnomalies env event r).
Proof.
  unfold checkForAnomalies.
  apply grows_bind; [apply select_quiet|]. intro rows.
  apply grows_bind; [apply grows_Date_now; reflexivity|]. intro now.
  apply grows_bind; [apply write_log_quiet|]. intro.
  apply grows_if; [apply grows_broadcast; reflexivity|apply grows_ret].
Qed.

Ltac risk_leaf :=
  first
    [ eapply grows_weaken; [|apply saveEvent_grows];
      cbn; intros ? [Ht Hr]; unfold risk_as_specified;
      rewrite Ht, Hr; reflexivity
    | eapply grows_weaken; [|apply saveAlert_quiet]; contradiction
    | eapply grows_weaken; [|apply saveIncident_quiet]; contradiction
    | eapply grows_weaken; [|apply checkForAnomalies_quiet]; contradiction ].

Lemma track_pixel_risk req d r action ts :
  grows stored_events risk_as_specified (track_pixel env req d r action ts).
Proof. unfold track_pixel. grow_with risk_leaf. Qed.

Lemma track_report_risk rep req b :
  grows stored_events risk_as_specified (track_report env rep req b).
Proof.
  destruct rep; cbn [track_report];
    [ unfold track_document_open | unfold track_page_view
    | unfold track_download | unfold track_print
    | unfold track_forward | unfold track_copy ];
    grow_with risk_leaf.
Qed.

Lemma http_world (h : M Response) w : snd (http h w) = snd (h w).
Proof.
  unfold http, express. destruct (h w) as [[res|e] w']; reflexivity.
Qed.

Lemma run_risk op :
  forall w, exists added,
    stored_events (snd (run env op w)) = stored_events w ++ added
    /\ Forall risk_as_specified added.
Proof.
  intro w.
  assert (Hq : forall h, (forall w0, stored_events (snd (h w0)) = stored_events w0)
                         -> exists added,
                           stored_events (snd (http h w)) = stored_events w ++ added
                           /\ Forall risk_as_specified added).
  { intros h Hh. exists []. rewrite http_world, Hh, app_nil_r.
    split; [reflexivity|constructor]. }
  destruct op; cbn [run];
    try (apply Hq; intro; reflexivity);
    try (exists []; rewrite app_nil_r; split; [reflexivity|constructor]).
  - rewrite http_world. apply track_pixel_risk.
  - rewrite http_world. apply track_report_risk.
Qed.

End EventsGrow.

(* ================================================================= *)
(** ** What the save functions do, step by step *)

Section Runs.

Variable env : Env.

Lemma or_randomUUID_drawn k :
  or_randomUUID env (Val (randomUUID env k)) = ret (randomUUID env k).
Proof.
  unfold or_randomUUID, or_null. rewrite randomUUID_truthy. reflexivity.
Qed.

Lemma saveEvent_run (event : EventInit) k t w :
  init_id event = Val (randomUUID env k) ->
  init_timestamp event = Val t ->
  saveEvent env event w =
  match init_documentId event, init_recipientId event with
  | Val d, Val r =>
      if existsb (String.eqb (randomUUID env k)) (map row_id (events (db w)))
      then (Thrown DbError, w)
      else
        let record := event_record event (randomUUID env k) t in
        let row := event_row record d r (clock env (ticks w) / 1000) in
        (Returned record,
         add_log (Persisted row) (set_db (add_event row (db w)) (next_tick w)))
  | _, _ => (Thrown DbError, w)
  end.
Proof.
  intros Hid Ht. unfold saveEvent. rewrite Hid, or_randomUUID_drawn, Ht.
  unfold bind at 1 2. cbn [ret or_now].
  unfold insertEventStmt_run, bind. cbn [ev_documentId ev_recipientId event_record].
  destruct (init_documentId event) as [| |d]; try reflexivity.
  destruct (init_recipientId event) as [| |r]; try reflexivity.
  cbn [get_world ev_id]. destruct (existsb _ _); reflexivity.
Qed.

Lemma saveAlert_run (alert : AlertInit) k w :
  ainit_id alert = Val (randomUUID env k) ->
  saveAlert env alert w =
  let record := alert_record alert (randomUUID env k) in
  if existsb (String.eqb (randomUUID env k))
             (map (fun r => al_id (arow_alert r)) (alerts (db w)))
     || negb match al_eventId record with
             | Some e => existsb (String.eqb e) (map row_id (events (db w)))
             | None => true
             end
  then (Thrown DbError, w)
  else
    (Returned record,
     set_db (add_alert {| arow_alert := record;
                          arow_createdAt := clock env (ticks w) / 1000 |}
                       (db w)) (next_tick w)).
Proof.
  intros Hid. unfold saveAlert. rewrite Hid, or_randomUUID_drawn.
  unfold bind at 1. cbn [ret].
  unfold insertAlertStmt_run, bind. cbn [get_world al_id alert_record al_eventId].
  cbn zeta. destruct (_ || _); reflexivity.
Qed.

Lemma saveIncident_run (incident : IncidentInit) k t w :
  iinit_id incident = Val (randomUUID env k) ->
  iinit_timestamp incident = Val t ->
  saveIncident env incident w =
  match iinit_documentId incident with
  | Val d =>
      if existsb (String.eqb (randomUUID env k))
                 (map irow_id (incidents (db w)))
      then (Thrown DbError, w)
      else
        let record := incident_record incident (randomUUID env k) t in
        (Returned record,
         set_db (add_incident
                   (incident_row record d (clock env (ticks w) / 1000)) (db w))
                (next_tick w))
  | _ => (Thrown DbError, w)
  end.
Proof.
  intros Hid Ht. unfold saveIncident. rewrite Hid, or_randomUUID_drawn, Ht.
  unfold bind at 1 2. cbn [ret or_now].
  unfold insertIncidentStmt_run, bind. cbn [inc_documentId incident_record].
  destruct (iinit_documentId incident) as [| |d]; try reflexivity.
  cbn [get_world inc_id]. destruct (existsb _ _); reflexivity.
Qed.

End Runs.

(* ================================================================= *)
(** ** Opening a document: persist, then evaluate *)

Section DocumentOpen.

Variable env : Env.

Lemma checkForAnomalies_run event r w :
  checkForAnomalies env event (Val r) w =
  let anomalies :=
    anomalies_of env (rows_of_recipient r w) event (clock env (ticks w)) in
  let w1 := add_log (Evaluated event anomalies) (next_tick w) in
  (Returned tt,
   if (0 <? List.length anomalies)%nat
   then add_sent (map (fun c => (sock_id c, ANOMALY_DETECTED anomalies event))
                      (filter sock_open (wss_clients w))) w1
   else w1).
Proof.
  unfold checkForAnomalies, bind. cbn [select_events_of_recipient].
  unfold bind. cbn [get_world ret Date_now write_log].
  fold (rows_of_recipient r w).
  destruct (0 <? _)%nat; reflexivity.
Qed.

(** A run of the document-open handler either throws before anything
    is written, or writes the event, then evaluates it against the
    recipient's rows, the new row among them. *)
Lemma document_open_run req b w :
  let out := track_document_open env req b w in
  (exists e, fst out = Thrown e
             /\ db (snd out) = db w /\ log (snd out) = log w
             /\ sent (snd out) = sent w)
  \/ (exists record row now,
        fst out = Returned (json (OpenAck true (ev_id record)))
        /\ row_of record row
        /\ recipientId b = Val (row_recipientId row)
        /\ row_type row = document_opened
        /\ events (db (snd out)) = events (db w) ++ [row]
        /\ now = clock env (S (S (ticks w)))
        /\ log (snd out) =
           log w ++
             [ Persisted row;
               Evaluated record
                 (anomalies_of env
                    (rows_of_recipient (row_recipientId row) (snd out))
                    record now) ]).
Proof.
  intro out. assert (H : out = track_document_open env req b w) by reflexivity.
  clearbody out. unfold track_document_open in H.
  unfold bind at 1 2 in H. cbn [crypto_randomUUID Date_now] in H.
  match type of H with context [saveEvent env ?i] => set (init := i) in H end.
  unfold bind at 1 in H.
  rewrite (saveEvent_run env init (draws w) (clock env (ticks w))) in H
    by reflexivity.
  change (init_documentId init) with (documentId b) in H.
  change (init_recipientId init) with (recipientId b) in H.
  destruct (documentId b) as [| |d];
    [left; exists DbError; subst out; repeat split; reflexivity ..|].
  destruct (recipientId b) as [| |r];
    [left; exists DbError; subst out; repeat split; reflexivity ..|].
  cbn [db next_tick next_draw ticks] in H.
  destruct (existsb _ _);
    [left; exists DbError; subst out; repeat split; reflexivity|].
  cbv zeta in H.
  set (record := event_record init _ _) in H.
  set (row := event_row record d r _) in H.
  right. exists record, row, (clock env (S (S (ticks w)))).
  unfold bind at 1 in H. cbn [broadcastToAdmins] in H.
  unfold bind at 1 in H. rewrite checkForAnomalies_run in H. cbv zeta in H.
  cbn [ret ticks add_sent add_log next_tick set_db wss_clients] in H.
  subst out. cbn [fst snd].
  split; [reflexivity|].
  split; [exists (clock env (S (ticks w)) / 1000); repeat split; reflexivity|].
  split; [reflexivity|].
  split; [reflexivity|].
  split; [destruct (0 <? _)%nat; reflexivity|].
  split; [reflexivity|].
  destruct (0 <? _)%nat eqn:E;
    unfold rows_of_recipient, ret;
    cbn [log add_sent add_log snd next_tick next_draw set_db db ticks];
    rewrite <- app_assoc; reflexivity.
Qed.

End DocumentOpen.

(* ================================================================= *)
(** ** The location rule on rows that already hold the event *)

Lemma set_spread_In x xs : forall seen,
  In x (set_spread seen xs) <-> In x xs /\ ~ In x seen.
Proof.
  induction xs as [|y ys IH]; intro seen; cbn [set_spread].
  - split; [contradiction | intros [[] _]].
  - destruct (existsb (String.eqb y) seen) eqn:E.
    + rewrite IH. apply existsb_exists in E. destruct E as [z [Hz Hyz]].
      apply String.eqb_eq in Hyz. subst z.
      split; [intros [H1 H2]; split; [right|]; assumption|].
      intros [[->|H1] H2]; [contradiction|split; assumption].
    + assert (Hy : ~ In y seen).
      { intro Hin. apply Bool.not_true_iff_false in E. apply E.
        apply existsb_exists. exists y. split; [assumption|apply String.eqb_refl]. }
      cbn [In]. rewrite IH. cbn [In].
      split.
      * intros [->|[H1 H2]]; [split; [left; reflexivity|assumption]|].
        split; [right; assumption|]. intro H3. apply H2. right. assumption.
      * intros [[->|H1] H2]; [left; reflexivity|].
        destruct (String.eqb_spec y x) as [->|Hne]; [left; reflexivity|].
        right. split; [assumption|]. intros [H3|H3]; [congruence|contradiction].
Qed.

Lemma filter_Boolean_In s xs :
  In s (filter_Boolean xs) <-> In (Some s) xs /\ truthy s = true.
Proof.
  unfold filter_Boolean. rewrite in_flat_map. split.
  - intros [[t|] [Hin Hs]]; [|contradiction].
    destruct (truthy t) eqn:E; [|contradiction].
    destruct Hs as [->|[]]. split; assumption.
  - intros [Hin Ht]. exists (Some s). split; [assumption|].
    rewrite Ht. left. reflexivity.
Qed.

Lemma distinct_truthy_In s xs :
  In s (distinct_truthy xs) <-> In (Some s) xs /\ truthy s = true.
Proof.
  unfold distinct_truthy. rewrite set_spread_In, filter_Boolean_In.
  split; [intros [H _]; exact H | intro H; split; [exact H | intros []]].
Qed.

(** The rule is silent for an event whose own row is among the rows it
    is evaluated against. *)
Lemma unusual_location_of_stored rows row event :
  In row rows -> row_location row = ev_location event ->
  unusual_location rows event = [].
Proof.
  intros Hin Hloc. unfold unusual_location.
  destruct (ev_location event) as [loc|]; [|reflexivity].
  destruct (truthy loc) eqn:Ht;
    [|rewrite Bool.andb_false_r; reflexivity].
  assert (Hseen : existsb (String.eqb loc)
                    (distinct_truthy (map row_location rows)) = true).
  { apply existsb_exists. exists loc. split; [|apply String.eqb_refl].
    apply distinct_truthy_In. split; [|assumption].
    rewrite <- Hloc. apply in_map. assumption. }
  rewrite Hseen. cbn [negb]. rewrite Bool.andb_false_r. reflexivity.
Qed.

Lemma has_finding_app type a b :
  has_finding type (a ++ b) = has_finding type a || has_finding type b.
Proof. apply existsb_app. Qed.

Lemma unusual_time_type hour :
  has_finding "UNUSUAL_LOCATION" (unusual_time hour) = false.
Proof. unfold unusual_time. destruct (_ || _); reflexivity. Qed.

Lemma rapid_access_type rows now :
  has_finding "UNUSUAL_LOCATION" (rapid_access rows now) = false.
Proof. unfold rapid_access. cbv zeta. destruct (_ <? _)%nat; reflexivity. Qed.

Lemma unusual_location_type rows event :
  has_finding "RAPID_ACCESS" (unusual_location rows event) = false.
Proof.
  unfold unusual_location. destruct (ev_location event); [|reflexivity].
  destruct (_ && _); reflexivity.
Qed.

Lemma unusual_time_not_rapid hour :
  has_finding "RAPID_ACCESS" (unusual_time hour) = false.
Proof. unfold unusual_time. destruct (_ || _); reflexivity. Qed.

(** The rule as [checkForAnomalies] codes it, on any rows and event. *)
Lemma unusual_location_rule rows event :
  let locations := distinct_truthy (map row_location rows) in
  has_finding "UNUSUAL_LOCATION" (unusual_location rows event) = true
  <-> exists loc,
        ev_location event = Some loc
        /\ (3 < List.length locations)%nat
        /\ loc <> ""
        /\ ~ In loc locations.
Proof.
  cbv zeta. unfold unusual_location.
  destruct (ev_location event) as [loc|].
  - destruct (3 <? _)%nat eqn:E3; cbn [andb].
    + unfold truthy. destruct (String.eqb_spec loc "") as [->|Hne]; cbn [negb andb].
      * split; [discriminate|]. intros [l [Hl [_ [Hne _]]]].
        inversion Hl. subst l. contradiction.
      * destruct (existsb _ _) eqn:Ex; cbn [negb].
        -- split; [discriminate|]. intros [l [Hl [_ [_ Hnot]]]].
           inversion Hl. subst l. exfalso. apply Hnot.
           apply existsb_exists in Ex. destruct Ex as [x [Hx Heq]].
           apply String.eqb_eq in Heq. subst x. exact Hx.
        -- split; [|reflexivity]. intros _. exists loc.
           split; [reflexivity|]. split; [apply Nat.ltb_lt; exact E3|].
           split; [exact Hne|]. intro Hin.
           apply Bool.not_true_iff_false in Ex. apply Ex.
           apply existsb_exists. exists loc.
           split; [exact Hin|apply String.eqb_refl].
    + split; [discriminate|]. intros [l [_ [Hlt _]]].
      apply Nat.ltb_lt in Hlt. congruence.
  - split; [discriminate|]. intros [l [Hl _]]. discriminate Hl.
Qed.

(** No document-open request ever reports an unusual location. *)
Lemma document_open_never_reports_location env req b w :
  exists added,
    log (snd (track_document_open env req b w)) = log w ++ added
    /\ reported "UNUSUAL_LOCATION" added = false.
Proof.
  destruct (document_open_run env req b w)
    as [[e [_ [_ [Hlog _]]]] | [record [row [now [_ [Hrow [_ [_ [Hev [_ Hlog]]]]]]]]]].
  - exists []. rewrite Hlog, app_nil_r. split; reflexivity.
  - eexists. split; [exact Hlog|].
    cbn [reported existsb]. rewrite Bool.orb_false_r.
    unfold anomalies_of. rewrite !has_finding_app.
    rewrite unusual_time_type, rapid_access_type, !Bool.orb_false_r.
    rewrite (unusual_location_of_stored _ row); [reflexivity| |].
    + unfold rows_of_recipient. apply filter_In. split.
      * rewrite Hev. apply in_or_app. right. left. reflexivity.
      * apply String.eqb_refl.
    + destruct Hrow as [c [Hr _]]. rewrite Hr. reflexivity.
Qed.

(* ================================================================= *)
(** ** Which handlers evaluate *)

Section LogGrows.

Variable env : Env.

Local Abbreviation unevaluated :=
  (grows log (fun e => is_evaluation e = false)).













End LogGrows.

(* ================================================================= *)
(** ** Requests that cannot be stored *)

Section Rejections.

Variable env : Env.

Ltac enter_report :=
  unfold bind at 1 2; cbn [crypto_randomUUID Date_now];
  unfold bind at 1;
  erewrite saveEvent_run by reflexivity;
  cbn [init_documentId init_recipientId].

(** A structured report without [documentId] or [recipientId] is
    rejected by the INSERT, before anything is written or sent. *)
Lemma report_without_ids rep req b w :
  missing (documentId b) \/ missing (recipientId b) ->
  exists w',
    track_report env rep req b w = (Thrown DbError, w')
    /\ db w' = db w /\ log w' = log w /\ sent w' = sent w.
Proof.
  intro Hmiss.
  destruct rep; cbn [track_report];
    [ unfold track_document_open | unfold track_page_view
    | unfold track_download | unfold track_print
    | unfold track_forward | unfold track_copy ];
    enter_report;
    (destruct (documentId b) as [| |d];
     [eexists; split; [reflexivity|repeat split] ..|]);
    (destruct (recipientId b) as [| |r];
     [eexists; split; [reflexivity|repeat split] ..|]);
    destruct Hmiss as [[]|[]].
Qed.

(** The pixel endpoint: stored and answered with the image, or an
    exception and nothing written. *)
Lemma track_pixel_run req d r action ts w :
  let out := track_pixel env req d r action ts w in
  if beacon_storable env ts w
  then fst out = Returned pixel_response
       /\ exists row,
            events (db (snd out)) = events (db w) ++ [row]
            /\ row_type row = pixel_beacon
            /\ row_documentId row = d
            /\ row_recipientId row = r
            /\ row_timestamp row = beacon_time env ts w
  else (exists e, fst out = Thrown e) /\ db (snd out) = db w.
Proof.
  intro out. assert (H : out = track_pixel env req d r action ts w) by reflexivity.
  clearbody out. unfold track_pixel in H.
  unfold bind at 1 in H. cbn [crypto_randomUUID] in H.
  unfold bind at 1 in H.
  unfold beacon_storable, beacon_time.
  assert (Hcase : exists w1,
            (match parseInt_param ts with
             | Some n => if n =? 0 then Date_now env else ret n
             | None => Date_now env
             end) (next_draw w)
            = (Returned match parseInt_param ts with
                        | Some n => if n =? 0 then clock env (ticks w) else n
                        | None => clock env (ticks w)
                        end, w1)
            /\ db w1 = db w).
  { destruct (parseInt_param ts) as [n|]; [destruct (n =? 0)|];
      eexists; split; reflexivity. }
  destruct Hcase as [w1 [Hrun Hdb]]. rewrite Hrun in H. clear Hrun.
  set (t := match parseInt_param ts with Some _ => _ | None => _ end) in *.
  unfold bind at 1 in H. unfold toISOString in H.
  destruct (valid_time t); cbn [andb ret throw] in H.
  - unfold bind at 1 in H.
    erewrite saveEvent_run in H by reflexivity.
    cbn [init_documentId init_recipientId] in H. rewrite Hdb in H.
    destruct (existsb _ _); cbn [negb] in *.
    + subst out. split; [exists DbError; reflexivity|exact Hdb].
    + cbv zeta in H. unfold bind in H. cbn [broadcastToAdmins ret] in H.
      subst out. unfold ret. cbn [fst snd]. split; [reflexivity|].
      eexists. cbn [db add_sent add_log set_db events add_event].
      repeat split.
  - subst out. split; [exists RangeError; reflexivity|exact Hdb].
Qed.

End Rejections.

(* ================================================================= *)
(** ** A reported forward *)

Section Forward.

Variable env : Env.

Lemma or_null_drawn k :
  or_null (Val (randomUUID env k)) = Some (randomUUID env k).
Proof. unfold or_null. rewrite randomUUID_truthy. reflexivity. Qed.

Lemma key_of_last_row id rows row :
  row_id row = id ->
  existsb (String.eqb id) (map row_id (rows ++ [row])) = true.
Proof.
  intros <-. rewrite map_app, existsb_app. cbn [map existsb].
  rewrite String.eqb_refl, Bool.orb_true_r. reflexivity.
Qed.

Lemma track_forward_run req b w d r :
  documentId b = Val d ->
  recipientId b = Val r ->
  unused (randomUUID env (draws w)) (map row_id (events (db w))) ->
  unused (randomUUID env (S (draws w))) (map irow_id (incidents (db w))) ->
  unused (randomUUID env (S (S (draws w))))
         (map (fun a => al_id (arow_alert a)) (alerts (db w))) ->
  exists w' event incident alert,
    track_forward env req b w = (Returned (json (ForwardAck true true)), w')
    /\ events (db w') = events (db w) ++ [event]
    /\ incidents (db w') = incidents (db w) ++ [incident]
    /\ alerts (db w') = alerts (db w) ++ [alert]
    /\ row_type event = document_forwarded
    /\ row_documentId event = d
    /\ row_recipientId event = r
    /\ row_forwardedTo event = or_null (forwardedTo b)
    /\ irow_type incident = "UNAUTHORIZED_FORWARDING"
    /\ irow_severity incident = "CRITICAL"
    /\ irow_fromRecipient incident = or_null (Val r)
    /\ irow_toRecipient incident = or_null (forwardedTo b)
    /\ al_type (arow_alert alert) = "UNAUTHORIZED_SHARE"
    /\ al_severity (arow_alert alert) = "critical"
    /\ al_requiresAction (arow_alert alert) = 1
    /\ al_eventId (arow_alert alert) = Some (row_id event).
Proof.
  intros Hd Hr He Hi Ha. unfold unused in *.
  unfold track_forward.
  unfold bind at 1 2. cbn [crypto_randomUUID Date_now].
  unfold bind at 1. erewrite saveEvent_run by reflexivity.
  cbn [init_documentId init_recipientId]. rewrite Hd, Hr.
  cbn [db next_tick next_draw]. rewrite He. cbv zeta.
  match goal with
  | |- context [event_record ?i ?id ?t] => set (record := event_record i id t)
  end.
  match goal with
  | |- context [Persisted ?x] => set (row := x)
  end.
  unfold bind at 1 2. cbn [crypto_randomUUID Date_now].
  unfold bind at 1.
  cbn [draws ticks add_log set_db next_tick next_draw].
  erewrite saveIncident_run by reflexivity.
  cbn [iinit_documentId db add_log set_db next_tick next_draw add_event
       incidents].
  rewrite Hi. cbv zeta.
  unfold bind at 1. cbn [crypto_randomUUID].
  unfold bind at 1.
  cbn [draws ticks add_log set_db next_tick next_draw].
  erewrite saveAlert_run by reflexivity. cbv zeta.
  cbn [db add_log set_db next_tick next_draw add_event add_incident
       alerts events al_eventId alert_record ainit_eventId].
  rewrite Ha.
  change (ev_id record) with (randomUUID env (draws w)).
  rewrite or_null_drawn.
  rewrite (key_of_last_row _ _ row) by reflexivity.
  cbn [negb orb].
  unfold bind. cbn [broadcastToAdmins ret].
  do 4 eexists. split; [reflexivity|].
  cbn [db add_sent add_log set_db next_tick next_draw add_event add_incident
       add_alert alerts events incidents].
  repeat split; try reflexivity.
  cbn [al_eventId arow_alert alert_record ainit_eventId].
  apply or_null_drawn.
Qed.

End Forward.

(* ================================================================= *)
(** ** The rapid-access rule *)

Lemma rapid_access_fires rows now :
  rapid_access rows now =
  if (5 <? List.length (recent_events rows now))%nat
  then [ {| f_type := "RAPID_ACCESS"; f_severity := "high";
            f_message :=
              string_of_Z (Z.of_nat (List.length (recent_events rows now)))
              ++ " accesses in 1 minute - possible data exfiltration" |} ]
  else [].
Proof. reflexivity. Qed.

(* ================================================================= *)
(** ** ORDER BY ... DESC *)

Section OrderBy.

Context {A : Type} (geb : A -> A -> bool).

Hypothesis geb_total : forall a b, geb a b = true \/ geb b a = true.

Local Abbreviation before := (fun a b => geb a b = true).

Lemma insert_desc_HdRel x y l :
  geb y x = true -> HdRel before y l -> HdRel before y (insert_desc geb x l).
Proof.
  intros Hyx Hl. destruct l as [|z l]; cbn [insert_desc].
  - constructor. exact Hyx.
  - destruct (negb (geb x z)); constructor; [|exact Hyx].
    inversion Hl. assumption.
Qed.

Lemma insert_desc_Sorted x l :
  Sorted before l -> Sorted before (insert_desc geb x l).
Proof.
  induction l as [|y l IH]; intro Hs; cbn [insert_desc].
  - repeat constructor.
  - inversion Hs as [|? ? Hl Hhd]; subst.
    destruct (geb x y) eqn:E; cbn [negb].
    + constructor; [assumption|]. constructor. exact E.
    + constructor; [apply IH; assumption|].
      apply insert_desc_HdRel; [|assumption].
      destruct (geb_total x y) as [H|H]; [congruence|exact H].
Qed.

Lemma order_by_desc_Sorted l : Sorted before (order_by_desc geb l).
Proof.
  induction l as [|x l IH]; cbn [order_by_desc fold_right].
  - constructor.
  - apply insert_desc_Sorted. exact IH.
Qed.

End OrderBy.

Lemma insert_desc_Permutation {A} (geb : A -> A -> bool) x l :
  Permutation (x :: l) (insert_desc geb x l).
Proof.
  induction l as [|y l IH]; cbn [insert_desc]; [reflexivity|].
  destruct (negb (geb x y)); [|reflexivity].
  rewrite perm_swap. constructor. exact IH.
Qed.

Lemma order_by_desc_Permutation {A} (geb : A -> A -> bool) l :
  Permutation l (order_by_desc geb l).
Proof.
  induction l as [|x l IH]; cbn [order_by_desc fold_right]; [constructor|].
  rewrite <- insert_desc_Permutation. constructor. exact IH.
Qed.

Lemma firstn_Sorted {A} (R : A -> A -> Prop) n : forall l,
  Sorted R l -> Sorted R (firstn n l).
Proof.
  induction n as [|n IH]; intros l Hs; [constructor|].
  destruct l as [|x l]; [constructor|]. cbn [firstn].
  inversion Hs as [|? ? Hl Hhd]; subst.
  constructor; [apply IH; assumption|].
  destruct l as [|y l]; [rewrite firstn_nil; constructor|].
  destruct n; cbn [firstn]; constructor. inversion Hhd. assumption.
Qed.

Lemma order_by_desc_length {A} (geb : A -> A -> bool) l :
  List.length (order_by_desc geb l) = List.length l.
Proof. symmetry. apply Permutation_length, order_by_desc_Permutation. Qed.

Lemma order_by_desc_In {A} (geb : A -> A -> bool) l x :
  In x (order_by_desc geb l) <-> In x l.
Proof.
  split; apply Permutation_in;
    [symmetry|]; apply order_by_desc_Permutation.
Qed.

Lemma firstn_In {A} n (l : list A) x : In x (firstn n l) -> In x l.
Proof.
  intro H. rewrite <- (firstn_skipn n l). apply in_or_app. left. exact H.
Qed.

Lemma StronglySorted_app_inv {A} (R : A -> A -> Prop) (l1 l2 : list A) :
  StronglySorted R (l1 ++ l2) ->
  forall x y, In x l1 -> In y l2 -> R x y.
Proof.
  induction l1 as [|a l1 IH]; intros Hs x y Hx Hy; [destruct Hx|].
  cbn [app] in Hs. inversion Hs as [|? ? Hl Hall]; subst.
  destruct Hx as [->|Hx]; [|apply IH; assumption].
  rewrite Forall_forall in Hall. apply Hall, in_or_app. right. exact Hy.
Qed.

Lemma newest_alerts_Sorted (l : list AlertRow) :
  Sorted (fun a b => arow_createdAt b <= arow_createdAt a)
         (order_by_desc newer_alert l).
Proof.
  eapply Sorted_ind with (P := fun l => Sorted _ l);
    [constructor| |apply (order_by_desc_Sorted newer_alert)].
  - intros a l' _ IH Hhd. constructor; [exact IH|].
    destruct Hhd; constructor. unfold newer_alert in *.
    apply Z.leb_le. assumption.
  - intros a b. unfold newer_alert.
    destruct (Z.le_ge_cases (arow_createdAt a) (arow_createdAt b));
      [right|left]; apply Z.leb_le; assumption.
Qed.

(** X23.  The alert listing: the total of the table, and the stored
    alerts with the latest createdAt, newest first, 100 of them at
    most -- no stored alert that is left out is newer than a listed
    one. *)
Lemma alert_listing_capped w :
  exists rows,
    fst (express get_alerts w)
    = json (AlertList (List.length (alerts (db w))) rows)
    /\ List.length rows = Nat.min 100 (List.length (alerts (db w)))
    /\ (List.length rows <= 100)%nat
    /\ (forall a, In a rows -> In a (alerts (db w)))
    /\ Sorted (fun a b => arow_createdAt b <= arow_createdAt a) rows
    /\ (forall a b, In a rows -> In b (alerts (db w)) -> ~ In b rows ->
                    arow_createdAt b <= arow_createdAt a).
Proof.
  exists (firstn 100 (order_by_desc newer_alert (alerts (db w)))).
  split; [reflexivity|]. split; [|split; [|split; [|split]]].
  - rewrite length_firstn, order_by_desc_length. reflexivity.
  - apply firstn_le_length.
  - intros a Hin. apply firstn_In, order_by_desc_In in Hin. exact Hin.
  - apply firstn_Sorted, newest_alerts_Sorted.
  - intros a b Ha Hb Hout.
    apply (order_by_desc_In newer_alert) in Hb.
    rewrite <- (firstn_skipn 100) in Hb. apply in_app_or in Hb.
    destruct Hb as [Hb|Hb]; [contradiction|].
    apply (StronglySorted_app_inv
             (fun a b => arow_createdAt b <= arow_createdAt a)
             (firstn 100 (order_by_desc newer_alert (alerts (db w))))
             (skipn 100 (order_by_desc newer_alert (alerts (db w)))));
      [|assumption|assumption].
    rewrite firstn_skipn. apply Sorted_StronglySorted.
    + intros x y z Hxy Hyz. lia.
    + apply newest_alerts_Sorted.
Qed.

(** The incident listing returns every row of the table. *)
Lemma incident_listing_complete env w :
  exists rows,
    fst (express (get_incidents env) w)
    = json (IncidentList (List.length (incidents (db w))) rows)
    /\ Permutation (incidents (db w)) rows.
Proof.
  eexists. split; [reflexivity|]. apply order_by_desc_Permutation.
Qed.

(* ================================================================= *)
(** ** Requests through Express *)

Lemma http_run (h : M Response) w :
  http h w = (Some (fst (express h w)), snd (express h w)).
Proof. unfold http. destruct (express h w). reflexivity. Qed.

Lemma express_returned (h : M Response) w res w' :
  h w = (Returned res, w') -> express h w = (res, w').
Proof. unfold express. intros ->. reflexivity. Qed.

Lemma express_thrown (h : M Response) w e w' :
  h w = (Thrown e, w') -> express h w = (error_500, w').
Proof. unfold express. intros ->. reflexivity. Qed.

Lemma express_world (h : M Response) w : snd (express h w) = snd (h w).
Proof. unfold express. destruct (h w) as [[res|e] w']; reflexivity. Qed.

Lemma express_fst (h : M Response) w :
  fst (express h w) = match fst (h w) with
                      | Returned res => res
                      | Thrown _ => error_500
                      end.
Proof. unfold express. destruct (h w) as [[res|e] w']; reflexivity. Qed.

(* ================================================================= *)
(** ** The claims *)

(** C1 (not met by the code).  The specification says that an event at a
    location new for a recipient with more than three known locations
    produces an UNUSUAL_LOCATION finding.  Here recipient r1 has been
    seen at four places and opens the document at a fifth: the event is
    stored first, the evaluation then finds its location among the
    stored ones, and the findings are empty. *)
Theorem new_location_goes_unreported :
  let before := seen_at_four_places in
  let after := snd (run demo_env open_at_fifth_place before) in
  distinct_truthy (map row_location (rows_of_recipient "r1" before))
  = ["Oslo, NO"; "Paris, FR"; "Lima, PE"; "Pune, IN"]
  /\ exists row record,
       log after = log before ++ [Persisted row; Evaluated record []]
       /\ row_recipientId row = "r1"
       /\ row_location row = Some "Tokyo, JP"
       /\ ev_location record = Some "Tokyo, JP".
Proof.
  cbv zeta. split; [vm_compute; reflexivity|].
  do 2 eexists. split; [vm_compute; reflexivity|].
  repeat split.
Qed.

(** C2, as stated, fails on a forward reported with an empty
    recipientId: the event keeps the empty text, the incident's
    fromRecipient is null. *)
Lemma forward_with_empty_recipient_breaks_link :
  let out := run demo_env forward_with_empty_recipient boot in
  fst out = Some (json (ForwardAck true true))
  /\ map row_type (events (db (snd out))) = [document_forwarded]
  /\ map row_recipientId (events (db (snd out))) = [""]
  /\ map irow_fromRecipient (incidents (db (snd out))) = [None].
Proof. vm_compute. repeat split. Qed.

(** C2 (amended).  A forward reported with a documentId and a
    recipientId, the three generated ids being new, is acknowledged and
    writes exactly one event, one incident of type
    UNAUTHORIZED_FORWARDING and one alert of type UNAUTHORIZED_SHARE,
    severity critical, requiresAction 1; the event stores the
    documentId and the recipientId as given (an empty recipientId as
    the empty text); the incident's toRecipient is the event's
    forwardedTo, and its fromRecipient is the event's recipientId when
    that is not empty, and null when it is. *)
Theorem forward_creates_incident_and_alert env req b w d r :
  documentId b = Val d ->
  recipientId b = Val r ->
  unused (randomUUID env (draws w)) (map row_id (events (db w))) ->
  unused (randomUUID env (S (draws w))) (map irow_id (incidents (db w))) ->
  unused (randomUUID env (S (S (draws w))))
         (map (fun a => al_id (arow_alert a)) (alerts (db w))) ->
  let out := run env (POST_track forward req b) w in
  fst out = Some (json (ForwardAck true true))
  /\ exists event incident alert,
       events (db (snd out)) = events (db w) ++ [event]
       /\ incidents (db (snd out)) = incidents (db w) ++ [incident]
       /\ alerts (db (snd out)) = alerts (db w) ++ [alert]
       /\ row_type event = document_forwarded
       /\ row_documentId event = d
       /\ row_recipientId event = r
       /\ irow_type incident = "UNAUTHORIZED_FORWARDING"
       /\ al_type (arow_alert alert) = "UNAUTHORIZED_SHARE"
       /\ al_severity (arow_alert alert) = "critical"
       /\ al_requiresAction (arow_alert alert) = 1
       /\ irow_toRecipient incident = row_forwardedTo event
       /\ (r <> "" -> irow_fromRecipient incident
                      = Some (row_recipientId event))
       /\ (r = "" -> row_recipientId event = ""
                     /\ irow_fromRecipient incident = None).
Proof.
  intros Hd Hr He Hi Ha out.
  destruct (track_forward_run env req b w d r Hd Hr He Hi Ha)
    as [w' [event [incident [alert [Hrun H]]]]].
  decompose record H. clear H.
  subst out. cbn [run track_report]. rewrite http_run.
  rewrite (express_returned _ _ _ _ Hrun). cbn [fst snd].
  split; [reflexivity|].
  exists event, incident, alert. repeat split; try assumption.
  - congruence.
  - intro Hne. match goal with H : irow_fromRecipient _ = _ |- _ => rewrite H end.
    unfold or_null, truthy. destruct (String.eqb_spec r ""); [contradiction|].
    cbn [negb]. congruence.
  - congruence.
  - match goal with H : r = _ |- _ => rewrite H in * end. assumption.
Qed.

Lemma forward_creates_incident_and_alert_witness :
  let out := run demo_env forward_report boot in
  fst out = Some (json (ForwardAck true true))
  /\ exists event incident alert,
       events (db (snd out)) = events (db boot) ++ [event]
       /\ incidents (db (snd out)) = incidents (db boot) ++ [incident]
       /\ alerts (db (snd out)) = alerts (db boot) ++ [alert]
       /\ row_type event = document_forwarded
       /\ row_documentId event = "d1"
       /\ row_recipientId event = "r1"
       /\ irow_type incident = "UNAUTHORIZED_FORWARDING"
       /\ al_type (arow_alert alert) = "UNAUTHORIZED_SHARE"
       /\ al_severity (arow_alert alert) = "critical"
       /\ al_requiresAction (arow_alert alert) = 1
       /\ irow_toRecipient incident = row_forwardedTo event
       /\ ("r1" <> "" -> irow_fromRecipient incident
                         = Some (row_recipientId event))
       /\ ("r1" = "" -> row_recipientId event = ""
                        /\ irow_fromRecipient incident = None).
Proof.
  apply (forward_creates_incident_and_alert demo_env
           (from_ip "198.51.100.1")
           (forward_body (Val "d1") (Val "r1") (Val "ext@x.com"))
           boot "d1" "r1");
    reflexivity.
Defined.



(** C4.  Whatever an operation of the server appends to the events
    table carries the risk tier that the specification assigns to its
    type: document_opened low, copy_attempt medium, document_downloaded
    high, document_printed and document_forwarded critical, and no risk
    (tier none) for pixel_beacon and page_viewed -- for every request,
    body and state of the server. *)
Theorem risk_tier_is_a_function_of_type env op w :
  exists added,
    events (db (snd (run env op w))) = events (db w) ++ added
    /\ Forall (fun row =>
                 stored_tier (row_risk row) = Some (spec_risk (row_type row)))
              added.
Proof. apply run_risk. Qed.

(** Every type of the enumeration is written by some request. *)
Lemma every_type_is_stored (t : EventType) :
  exists op,
    map row_type (events (db (snd (run demo_env op boot)))) = [t].
Proof.
  destruct t;
    [ exists (beacon_with_ts Undefined)
    | exists open_at_first_place
    | exists (POST_track page_view (from_ip "198.51.100.1")
                         (report_body (Val "d1") (Val "r1")))
    | exists download_report
    | exists (POST_track print (from_ip "198.51.100.1")
                         (report_body (Val "d1") (Val "r1")))
    | exists forward_report
    | exists (POST_track copy (from_ip "198.51.100.1")
                         (report_body (Val "d1") (Val "r1"))) ];
    vm_compute; reflexivity.
Qed.

(** C5, as stated, fails when stored events are stamped in the future
    (the [ts] of a pixel beacon comes from the client): after six
    beacons stamped 2100-01-01, an open in 2023 is evaluated against
    seven rows of which one lies in the trailing 60 seconds of the
    evaluation, and RAPID_ACCESS is reported. *)
Lemma future_stamped_events_count_as_recent :
  let before := six_beacons_from_2100 in
  let after := snd (run demo_env open_at_first_place before) in
  let now := clock demo_env (S (S (ticks before))) in
  map is_evaluation (log before) = repeat false 6
  /\ List.length
       (filter (fun e => in_trailing_minute now (row_timestamp e))
               (rows_of_recipient "r1" after)) = 1%nat
  /\ match last_evaluation (log after) with
     | Some (record, anomalies) =>
         anomalies
         = anomalies_of demo_env (rows_of_recipient "r1" after) record now
         /\ has_finding "RAPID_ACCESS" anomalies = true
     | None => False
     end.
Proof. vm_compute. repeat split. Qed.

(** C5 (amended).  An evaluation for a recipient reports RAPID_ACCESS
    with severity high exactly when more than 5 of the recipient's
    stored events have a timestamp not older than 60 seconds at the
    evaluation time -- events stamped later than the evaluation time
    included. *)
Theorem rapid_access_threshold env event r w :
  let now := clock env (ticks w) in
  let recent :=
    filter (fun e => not_older_than_a_minute now (row_timestamp e))
           (rows_of_recipient r w) in
  exists anomalies,
    log (snd (checkForAnomalies env event (Val r) w))
    = log w ++ [Evaluated event anomalies]
    /\ if (5 <? List.length recent)%nat
       then exists body,
              In {| f_type := "RAPID_ACCESS"; f_severity := "high";
                    f_message := body |} anomalies
       else has_finding "RAPID_ACCESS" anomalies = false.
Proof.
  cbv zeta. rewrite checkForAnomalies_run. cbv zeta.
  eexists. split.
  - destruct (0 <? _)%nat; reflexivity.
  - unfold anomalies_of. rewrite rapid_access_fires.
    unfold recent_events, not_older_than_a_minute.
    destruct (5 <? _)%nat.
    + eexists. apply in_or_app. right. apply in_or_app. right.
      left. reflexivity.
    + rewrite !has_finding_app, unusual_location_type, unusual_time_not_rapid.
      reflexivity.
Qed.

(** Six accesses inside a minute: the sixth, an open, is reported. *)
Lemma sixth_access_within_a_minute :
  let before :=
    run_all demo_env (repeat (beacon_with_ts Undefined) 5) boot in
  reported "RAPID_ACCESS" (log before) = false
  /\ reported "RAPID_ACCESS"
       (log (snd (run demo_env open_at_first_place before))) = true.
Proof. vm_compute. split; reflexivity. Qed.

(** C6 (not met by the code).  The alert listing stops at 100 rows, the
    incident listing has no limit: after 101 reported forwards it
    returns 101 incidents. *)
Theorem incident_listing_is_not_capped :
  List.length (incidents (db after_101_forwards)) = 101%nat
  /\ List.length (alerts (db after_101_forwards)) = 101%nat
  /\ List.length
       (listed_incidents (fst (run demo_env GET_incidents after_101_forwards)))
     = 101%nat
  /\ List.length
       (listed_alerts (fst (run demo_env GET_alerts after_101_forwards)))
     = 100%nat.
Proof. vm_compute. repeat split. Qed.

(** C7, as stated, fails on a document-open report without documentId:
    nothing is stored, but the answer is a 500, not a client error. *)
Lemma missing_documentId_is_a_server_error :
  let out := run demo_env open_without_documentId boot in
  fst out = Some error_500
  /\ client_error error_500 = false
  /\ events (db (snd out)) = [].
Proof. vm_compute. repeat split. Qed.

(** C7 (amended).  A structured report (document-open, page-view,
    download, print, forward, copy) whose body lacks documentId or
    recipientId is answered with status 500 -- the INSERT's rejection
    reaching Express, the same answer as for any other failure of the
    handler -- and nothing is stored, evaluated or sent for it. *)
Theorem report_without_ids_fails_with_500 env rep req b w :
  missing (documentId b) \/ missing (recipientId b) ->
  let out := run env (POST_track rep req b) w in
  fst out = Some error_500
  /\ status error_500 = 500
  /\ db (snd out) = db w
  /\ log (snd out) = log w
  /\ sent (snd out) = sent w.
Proof.
  intros Hmiss out.
  destruct (report_without_ids env rep req b w Hmiss)
    as [w' [Hrun [Hdb [Hlog Hsent]]]].
  subst out. cbn [run]. rewrite http_run.
  rewrite (express_thrown _ _ _ _ Hrun). cbn [fst snd].
  repeat split; assumption.
Qed.

Lemma report_without_ids_fails_with_500_witness :
  (missing (documentId (report_body Undefined (Val "r1")))
   \/ missing (recipientId (report_body Undefined (Val "r1"))))
  /\ let out := run demo_env open_without_documentId boot in
     fst out = Some error_500
     /\ status error_500 = 500
     /\ db (snd out) = db boot
     /\ log (snd out) = log boot
     /\ sent (snd out) = sent boot.
Proof.
  split; [left; exact I|].
  apply (report_without_ids_fails_with_500 demo_env document_open
           (from_ip "198.51.100.1") (report_body Undefined (Val "r1")) boot).
  left. exact I.
Defined.

(** C8, as stated, fails on a beacon whose [ts] lies beyond the range
    of dates: the conversion to ISO text throws, the answer is a 500
    without the image. *)
Lemma beacon_beyond_date_range_gets_no_image :
  let out := run demo_env beacon_beyond_date_range boot in
  fst out = Some error_500
  /\ fst out <> Some pixel_response
  /\ events (db (snd out)) = [].
Proof. vm_compute. repeat split. discriminate. Qed.

(** C8 (amended).  A pixel-beacon request is answered with status 200,
    the 1x1 transparent image and the cache-disabling headers whenever
    its event is built and stored -- whoever is or is not connected to
    receive the broadcast; when building or storing the event throws (a
    time value outside the range of dates, an id already in the table),
    the answer is a 500 without the image and nothing is stored. *)
Theorem pixel_answer env req d r action ts w :
  let out := run env (GET_pixel req d r action ts) w in
  if beacon_storable env ts w
  then fst out = Some pixel_response
       /\ exists row,
            events (db (snd out)) = events (db w) ++ [row]
            /\ row_type row = pixel_beacon
  else fst out = Some error_500
       /\ db (snd out) = db w.
Proof.
  intro out. subst out. cbn [run]. rewrite http_run, express_world, express_fst.
  cbn [fst snd].
  pose proof (track_pixel_run env req d r action ts w) as H. cbv zeta in H.
  destruct (beacon_storable env ts w).
  - destruct H as [Hres [row [Hev [Hty _]]]]. rewrite Hres.
    split; [reflexivity|]. exists row. split; assumption.
  - destruct H as [[e He] Hdb]. rewrite He. split; [reflexivity|assumption].
Qed.

(** C9.  Whatever the server does -- ingestion, with its anomaly
    evaluation, queries, dashboard sockets connecting and leaving --
    the events table of a later state is the events table of the
    earlier state with rows appended: no row is changed or removed. *)
Theorem events_append_only env w w' :
  steps env w w' ->
  exists added, events (db w') = events (db w) ++ added.
Proof.
  induction 1 as [w|w w1 w2 _ [l1 IH] [op Hop]].
  - exists []. rewrite app_nil_r. reflexivity.
  - destruct (run_risk env op w1) as [l2 [E _]].
    unfold stored_events in E. rewrite Hop in E.
    exists (l1 ++ l2). rewrite E, IH, app_assoc. reflexivity.
Qed.

Lemma events_append_only_witness :
  steps demo_env boot (snd (run demo_env download_report boot))
  /\ exists added,
       events (db (snd (run demo_env download_report boot)))
       = events (db boot) ++ added.
Proof.
  assert (H : steps demo_env boot (snd (run demo_env download_report boot))).
  { eapply steps_next; [apply steps_refl|]. exists download_report. reflexivity. }
  split; [exact H|].
  apply (events_append_only demo_env boot _ H).
Defined.

(** The evaluation on its own leaves the three tables as they are. *)
Lemma checkForAnomalies_reads_only env event r w :
  db (snd (checkForAnomalies env event r w)) = db w.
Proof.
  destruct r as [| |r].
  - unfold checkForAnomalies, bind.
    cbn [select_events_of_recipient ret Date_now write_log].
    destruct (0 <? _)%nat; reflexivity.
  - unfold checkForAnomalies, bind.
    cbn [select_events_of_recipient ret Date_now write_log].
    destruct (0 <? _)%nat; reflexivity.
  - rewrite checkForAnomalies_run. cbv zeta.
    destruct (0 <? _)%nat; reflexivity.
Qed.

(** C10.  The event stored for a pixel beacon carries the [ts] query
    parameter as its timestamp when [parseInt(ts)] is a nonzero number,
    and the server's clock at ingestion when [ts] is absent, is not
    numeric, or parses to 0. *)
Theorem beacon_timestamp env req d r action ts w res w' :
  run env (GET_pixel req d r action ts) w = (Some res, w') ->
  status res = 200 ->
  exists row,
    events (db w') = events (db w) ++ [row]
    /\ row_type row = pixel_beacon
    /\ (forall n, parseInt_param ts = Some n -> n <> 0 ->
                  row_timestamp row = n)
    /\ (parseInt_param ts = Some 0 -> row_timestamp row = clock env (ticks w))
    /\ (parseInt_param ts = None -> row_timestamp row = clock env (ticks w))
    /\ (ts = Undefined -> row_timestamp row = clock env (ticks w)).
Proof.
  cbn [run]. rewrite http_run, express_world, express_fst.
  intros Hrun Hstatus. inversion Hrun as [[Hres Hw]]. clear Hrun.
  pose proof (track_pixel_run env req d r action ts w) as H. cbv zeta in H.
  destruct (beacon_storable env ts w).
  - destruct H as [_ [row [Hev [Hty [_ [_ Hts]]]]]].
    exists row. unfold beacon_time in Hts.
    split; [exact Hev|]. split; [exact Hty|].
    split; [|split; [|split]].
    + intros n Hn Hne. rewrite Hn in Hts.
      destruct (Z.eqb_spec n 0); [contradiction|assumption].
    + intro Hn. rewrite Hn in Hts. exact Hts.
    + intro Hn. rewrite Hn in Hts. exact Hts.
    + intros ->. exact Hts.
  - destruct H as [[e He] _]. rewrite He in Hres. subst res.
    discriminate Hstatus.
Qed.

Lemma beacon_timestamp_witness :
  let ts := Val "1700000000123" in
  let out := run demo_env (beacon_with_ts ts) boot in
  status pixel_response = 200
  /\ exists row,
       events (db (snd out)) = events (db boot) ++ [row]
       /\ row_timestamp row = 1700000000123.
Proof.
  cbv zeta. split; [reflexivity|].
  destruct (beacon_timestamp demo_env (from_ip "198.51.100.1") "d1" "r1"
              Undefined (Val "1700000000123") boot pixel_response
              (snd (run demo_env (beacon_with_ts (Val "1700000000123")) boot)))
    as [row [Hev [_ [Hts _]]]].
  - vm_compute. reflexivity.
  - reflexivity.
  - exists row. split; [exact Hev|].
    apply Hts; [vm_compute; reflexivity|discriminate].
Defined.

(** A [ts] of 0, a [ts] that is not a number, and no [ts]: the clock. *)
Lemma beacon_timestamp_fallbacks :
  map (fun ts => map row_timestamp
                     (events (db (snd (run demo_env (beacon_with_ts ts) boot)))))
      [ Val "0"; Val "soon"; Undefined; Val "1700000000123"; Val "12abc" ]
  = [ [clock demo_env 0]; [clock demo_env 0]; [clock demo_env 0];
      [1700000000123]; [12] ].
Proof. vm_compute. reflexivity. Qed.

(* ================================================================= *)
(** ** Further properties: what a stored event carries *)

Lemma truthy_nonempty s : truthy s = true -> s <> "".
Proof. unfold truthy. intros H ->. discriminate H. Qed.

Lemma or_null_truthy s : truthy s = true -> or_null (Val s) = Some s.
Proof. unfold or_null. intros ->. reflexivity. Qed.

Lemma or_null_Some x s : or_null x = Some s -> truthy s = true.
Proof.
  unfold or_null. destruct x as [| |t]; try discriminate.
  destruct (truthy t) eqn:E; [|discriminate]. intros [= <-]. exact E.
Qed.

Lemma truthy_append a b : truthy b = true -> truthy (a ++ b) = true.
Proof. destruct a; [trivial | reflexivity]. Qed.

Lemma getClientIP_truthy req : truthy (getClientIP req) = true.
Proof.
  unfold getClientIP.
  destruct (match x_forwarded_for req with
            | Val h => or_null (Val (before_comma h))
            | _ => None
            end) as [ip|] eqn:E.
  - destruct (x_forwarded_for req); try discriminate.
    eapply or_null_Some. exact E.
  - destruct (or_null (remoteAddress req)) as [ip|] eqn:E2; [|reflexivity].
    eapply or_null_Some. exact E2.
Qed.

Lemma getLocationFromIP_truthy env ip : truthy (getLocationFromIP env ip) = true.
Proof.
  unfold getLocationFromIP. destruct (String.eqb ip "unknown"); [reflexivity|].
  destruct (geoip_lookup env ip); try reflexivity.
  apply truthy_append. reflexivity.
Qed.

Lemma parseBrowserInfo_label ua :
  In (parseBrowserInfo ua) browser_labels /\ truthy (parseBrowserInfo ua) = true.
Proof.
  unfold parseBrowserInfo, browser_labels.
  destruct (or_null ua) as [s|]; [|cbn; auto 7].
  destruct (includes "Chrome" s); [cbn; auto 7|].
  destruct (includes "Safari" s && negb false); [cbn; auto 7|].
  destruct (includes "Firefox" s); [cbn; auto 7|].
  destruct (includes "Edge" s); cbn; auto 7.
Qed.

Section EventRows.

Variable env : Env.

Lemma insertEvent_row (record : Event) :
  grows stored_events
        (fun row => exists d r c,
                      row = event_row record d r c
                      /\ ev_documentId record = Val d
                      /\ ev_recipientId record = Val r)
        (insertEventStmt_run env record).
Proof.
  intro w. unfold insertEventStmt_run.
  destruct (ev_documentId record) as [| |d];
    try (exists []; rewrite app_nil_r; split; [reflexivity|constructor]).
  destruct (ev_recipientId record) as [| |r];
    try (exists []; rewrite app_nil_r; split; [reflexivity|constructor]).
  unfold bind, get_world.
  destruct (existsb _ _);
    [exists []; rewrite app_nil_r; split; [reflexivity|constructor]|].
  cbn. eexists [_]. split; [reflexivity|].
  constructor; [|constructor]. do 3 eexists. repeat split.
Qed.

Lemma saveEvent_row (event : EventInit) :
  grows stored_events
        (fun row => exists id t d r c,
                      row = event_row (event_record event id t) d r c
                      /\ init_documentId event = Val d
                      /\ init_recipientId event = Val r)
        (saveEvent env event).
Proof.
  unfold saveEvent.
  apply grows_bind; [apply grows_or_randomUUID; reflexivity|]. intro id.
  apply grows_bind; [apply grows_or_now; reflexivity|]. intro t.
  apply grows_bind; [|intro; apply grows_ret].
  eapply grows_weaken; [|apply insertEvent_row].
  intros row (d & r & c & H1 & H2 & H3). exists id, t, d, r, c.
  repeat split; assumption.
Qed.

Lemma enriched_row req event id t d r c :
  init_ipAddress event = Val (getClientIP req) ->
  init_location event = Val (getLocationFromIP env (getClientIP req)) ->
  init_device event = Val (parseBrowserInfo (user_agent req)) ->
  enriched (event_row (event_record event id t) d r c).
Proof.
  intros Hip Hloc Hdev. unfold enriched.
  cbn [event_row event_record row_ipAddress row_location row_device row_city
       row_country ev_ipAddress ev_location ev_device].
  rewrite Hip, Hloc, Hdev.
  rewrite !or_null_truthy
    by first [apply getClientIP_truthy | apply getLocationFromIP_truthy
             | apply parseBrowserInfo_label].
  repeat split.
  - eexists. split; [reflexivity|].
    apply truthy_nonempty, getClientIP_truthy.
  - eexists. split; [reflexivity|].
    apply truthy_nonempty, getLocationFromIP_truthy.
  - eexists. split; [reflexivity|]. apply parseBrowserInfo_label.
Qed.

Lemma getClientIP_unknown req : no_address req -> getClientIP req = "unknown".
Proof.
  intros [Hh Ha]. unfold getClientIP.
  destruct (x_forwarded_for req) as [| |h]; rewrite ?Ha; try reflexivity.
  rewrite Hh. reflexivity.
Qed.

Lemma getLocationFromIP_unknown ip :
  ip = "unknown" \/ geoip_lookup env ip = GeoMiss
  \/ geoip_lookup env ip = GeoThrows ->
  getLocationFromIP env ip = "Unknown Location".
Proof.
  intro H. unfold getLocationFromIP.
  destruct (String.eqb_spec ip "unknown") as [|Hne]; [reflexivity|].
  destruct H as [H|[H|H]]; [contradiction| |]; rewrite H; reflexivity.
Qed.

Lemma enriched_from_row req event id t d r c :
  init_ipAddress event = Val (getClientIP req) ->
  init_location event = Val (getLocationFromIP env (getClientIP req)) ->
  init_device event = Val (parseBrowserInfo (user_agent req)) ->
  enriched_from env req (event_row (event_record event id t) d r c).
Proof.
  intros Hip Hloc Hdev. unfold enriched_from. cbv zeta.
  cbn [event_row event_record row_ipAddress row_location row_device
       ev_ipAddress ev_location ev_device].
  rewrite Hip, Hloc, Hdev.
  rewrite !or_null_truthy
    by first [apply getClientIP_truthy | apply getLocationFromIP_truthy
             | apply parseBrowserInfo_label].
  repeat (split; [reflexivity|]). split; [|split].
  - intro H. rewrite (getClientIP_unknown req H). reflexivity.
  - intro H. rewrite (getLocationFromIP_unknown _ H). reflexivity.
  - intro H. unfold parseBrowserInfo. rewrite H. reflexivity.
Qed.

Ltac row_leaf tac :=
  first
    [ eapply grows_weaken; [|apply saveEvent_row];
      cbn beta; intros ? (? & ? & ? & ? & ? & -> & _ & _); tac
    | eapply grows_weaken; [|apply saveAlert_quiet]; contradiction
    | eapply grows_weaken; [|apply saveIncident_quiet]; contradiction
    | eapply grows_weaken; [|apply checkForAnomalies_quiet]; contradiction ].

Ltac unfold_report rep :=
  destruct rep; cbn [track_report];
  [ unfold track_document_open | unfold track_page_view
  | unfold track_download | unfold track_print
  | unfold track_forward | unfold track_copy ].

Lemma run_rows (Q : EventRow -> Prop) :
  (forall req d r action ts,
      grows stored_events Q (track_pixel env req d r action ts)) ->
  (forall rep req b, grows stored_events Q (track_report env rep req b)) ->
  forall op w, exists added,
    events (db (snd (run env op w))) = events (db w) ++ added
    /\ Forall Q added.
Proof.
  intros Hpixel Hreport op w.
  destruct op; cbn [run];
    try (exists []; rewrite ?http_world, app_nil_r;
         split; [reflexivity|constructor]).
  - rewrite http_world. apply Hpixel.
  - rewrite http_world. apply Hreport.
Qed.

Lemma track_pixel_enriched req d r action ts :
  grows stored_events
        (fun row => enriched row /\ enriched_from env req row)
        (track_pixel env req d r action ts).
Proof.
  unfold track_pixel.
  grow_with ltac:(row_leaf ltac:(
    split; [eapply enriched_row|apply enriched_from_row]; reflexivity)).
Qed.

Lemma track_report_enriched rep req b :
  grows stored_events
        (fun row => enriched row /\ enriched_from env req row)
        (track_report env rep req b).
Proof.
  unfold_report rep;
    grow_with ltac:(row_leaf ltac:(
      split; [eapply enriched_row|apply enriched_from_row]; reflexivity)).
Qed.

(** X1.  Every row that any operation appends to the events table comes
    from a tracking request and carries what the three helpers give for
    that request -- [getClientIP], [getLocationFromIP] of that address,
    [parseBrowserInfo] of the user agent -- none of them NULL or empty:
    without a header and a socket address the row says "unknown", for
    that address and for a lookup that finds nothing or throws it says
    "Unknown Location", without a user agent it says "Unknown". *)
Theorem stored_events_are_enriched op w :
  exists added,
    events (db (snd (run env op w))) = events (db w) ++ added
    /\ match request_of op with
       | Some req =>
           Forall (fun row => enriched row /\ enriched_from env req row) added
       | None => added = []
       end.
Proof.
  destruct op; cbn [run request_of];
    try (exists []; rewrite ?http_world, app_nil_r;
         split; reflexivity).
  - rewrite http_world. apply track_pixel_enriched.
  - rewrite http_world. apply track_report_enriched.
Qed.

(** X2.  The type-specific columns: [unauthorized] is 1 exactly on forwarded
    rows, [action] is present exactly on pixel beacons, page counters
    appear only on page views, [forwardedTo] only on forwards,
    [watermarkId] only on opens -- whatever the request body held. *)
Theorem stored_events_payload_by_type op w :
  exists added,
    events (db (snd (run env op w))) = events (db w) ++ added
    /\ Forall payload_by_type added.
Proof.
  apply run_rows.
  - intros. unfold track_pixel.
    grow_with ltac:(row_leaf ltac:(
      unfold payload_by_type; cbn;
      repeat split; try congruence; try discriminate; try tauto)).
    intros _. destruct (or_null action) as [a2|] eqn:E; [|discriminate].
    rewrite (or_null_Some _ _ E). discriminate.
  - intros. unfold_report rep;
      grow_with ltac:(row_leaf ltac:(
        unfold payload_by_type; cbn;
        repeat split; try congruence; try discriminate; try tauto)).
Qed.

End EventRows.

(* ================================================================= *)
(** ** Further properties: alerts and incidents *)

Section AlertsAndIncidents.

Variable env : Env.

Ltac unchanged :=
  exists []; rewrite app_nil_r; split; [reflexivity | constructor].

Lemma insertEvent_keeps {X} (f : Db -> list X) (Q : X -> Prop) record :
  (forall row d, f (add_event row d) = f d) ->
  grows (fun w => f (db w)) Q (insertEventStmt_run env record).
Proof.
  intros Hf w. unfold insertEventStmt_run.
  destruct (ev_documentId record) as [| |d]; try unchanged.
  destruct (ev_recipientId record) as [| |r]; try unchanged.
  unfold bind, get_world. destruct (existsb _ _); [unchanged|].
  cbn. rewrite Hf. unchanged.
Qed.

Lemma saveEvent_keeps {X} (f : Db -> list X) (Q : X -> Prop) event :
  (forall row d, f (add_event row d) = f d) ->
  grows (fun w => f (db w)) Q (saveEvent env event).
Proof.
  intro Hf. unfold saveEvent.
  apply grows_bind; [apply grows_or_randomUUID; reflexivity|]. intro id.
  apply grows_bind; [apply grows_or_now; reflexivity|]. intro t.
  apply grows_bind; [apply insertEvent_keeps; exact Hf|intro; apply grows_ret].
Qed.

Lemma checkForAnomalies_keeps {X} (f : Db -> list X) (Q : X -> Prop) event r :
  grows (fun w => f (db w)) Q (checkForAnomalies env event r).
Proof.
  apply grows_same. intro w. rewrite checkForAnomalies_reads_only. reflexivity.
Qed.

Lemma saveAlert_row (alert : AlertInit) :
  grows stored_alerts
        (fun row => exists id, arow_alert row = alert_record alert id)
        (saveAlert env alert).
Proof.
  unfold saveAlert.
  apply grows_bind; [apply grows_or_randomUUID; reflexivity|]. intro id.
  apply grows_bind; [|intro; apply grows_ret].
  intro w. unfold insertAlertStmt_run, bind, get_world.
  destruct (_ || _); [unchanged|].
  cbn. eexists [_]. split; [reflexivity|].
  constructor; [|constructor]. exists id. reflexivity.
Qed.

Lemma saveAlert_keeps_incidents (Q : IncidentRow -> Prop) alert :
  grows stored_incidents Q (saveAlert env alert).
Proof.
  unfold saveAlert.
  apply grows_bind; [apply grows_or_randomUUID; reflexivity|]. intro id.
  apply grows_bind; [|intro; apply grows_ret].
  intro w. unfold insertAlertStmt_run, bind, get_world.
  destruct (_ || _); unchanged.
Qed.

Lemma saveIncident_row (incident : IncidentInit) :
  grows stored_incidents
        (fun row => exists id t d c,
                      row = incident_row (incident_record incident id t) d c
                      /\ iinit_documentId incident = Val d)
        (saveIncident env incident).
Proof.
  unfold saveIncident.
  apply grows_bind; [apply grows_or_randomUUID; reflexivity|]. intro id.
  apply grows_bind; [apply grows_or_now; reflexivity|]. intro t.
  apply grows_bind; [|intro; apply grows_ret].
  intro w. unfold insertIncidentStmt_run.
  cbn [inc_documentId incident_record].
  destruct (iinit_documentId incident) as [| |d]; try unchanged.
  unfold bind, get_world. destruct (existsb _ _); [unchanged|].
  cbn. eexists [_]. split; [reflexivity|].
  constructor; [|constructor]. exists id, t, d. eexists. split; reflexivity.
Qed.

Lemma saveIncident_keeps_alerts (Q : AlertRow -> Prop) incident :
  grows stored_alerts Q (saveIncident env incident).
Proof.
  unfold saveIncident.
  apply grows_bind; [apply grows_or_randomUUID; reflexivity|]. intro id.
  apply grows_bind; [apply grows_or_now; reflexivity|]. intro t.
  apply grows_bind; [|intro; apply grows_ret].
  intro w. unfold insertIncidentStmt_run.
  destruct (inc_documentId _); try unchanged.
  unfold bind, get_world. destruct (existsb _ _); unchanged.
Qed.

Ltac alert_leaf tac :=
  first
    [ apply (saveEvent_keeps alerts); reflexivity
    | apply saveIncident_keeps_alerts
    | apply (checkForAnomalies_keeps alerts)
    | eapply grows_weaken; [|apply saveAlert_row];
      cbn beta; intros ? [? ?]; tac ].

Ltac incident_leaf tac :=
  first
    [ apply (saveEvent_keeps incidents); reflexivity
    | apply saveAlert_keeps_incidents
    | apply (checkForAnomalies_keeps incidents)
    | eapply grows_weaken; [|apply saveIncident_row];
      cbn beta; intros ? (? & ? & ? & ? & -> & ?); tac ].

Ltac unfold_report rep :=
  destruct rep; cbn [track_report];
  [ unfold track_document_open | unfold track_page_view
  | unfold track_download | unfold track_print
  | unfold track_forward | unfold track_copy ].

Lemma message_nonempty (prefix rest : string) :
  prefix <> "" -> (prefix ++ rest)%string <> "".
Proof. destruct prefix; [congruence | discriminate]. Qed.

Lemma track_report_alerts rep req b :
  grows stored_alerts (alert_of_report rep) (track_report env rep req b).
Proof.
  unfold_report rep;
    grow_with ltac:(alert_leaf ltac:(
      unfold alert_of_report; cbv zeta;
      match goal with H : arow_alert _ = _ |- _ => rewrite H end;
      cbn [alert_record al_message al_type al_severity al_requiresAction
           ainit_message ainit_type ainit_severity ainit_requiresAction];
      split; [first [apply message_nonempty; discriminate | discriminate]
             | repeat split])).
Qed.

Lemma track_pixel_alerts req d r action ts :
  grows stored_alerts (fun _ => False) (track_pixel env req d r action ts).
Proof. unfold track_pixel. grow_with ltac:(alert_leaf fail). Qed.

Lemma track_report_incidents rep req b :
  grows stored_incidents
        (fun row => rep = forward /\ incident_of_forward b row)
        (track_report env rep req b).
Proof.
  unfold_report rep;
    grow_with ltac:(incident_leaf ltac:(
      split; [reflexivity|];
      unfold incident_of_forward; cbn; repeat split; assumption)).
Qed.

Lemma track_pixel_incidents req d r action ts :
  grows stored_incidents (fun _ => False) (track_pixel env req d r action ts).
Proof. unfold track_pixel. grow_with ltac:(incident_leaf fail). Qed.

Lemma Forall_False_nil {X} (l : list X) : Forall (fun _ => False) l -> l = [].
Proof. destruct l; [reflexivity|]. intro H. inversion H. contradiction. Qed.

(** X3.  Alerts come from download, print and forward reports only, and
    each kind writes its own alert: HIGH_RISK_ACTION / high / no action
    required for a download, CRITICAL_ACTION / critical / action
    required for a print, UNAUTHORIZED_SHARE / critical / action
    required for a forward.  No other operation touches the table. *)
Theorem alerts_written_by op w :
  exists added,
    alerts (db (snd (run env op w))) = alerts (db w) ++ added
    /\ match op with
       | POST_track rep _ _ => Forall (alert_of_report rep) added
       | _ => added = []
       end.
Proof.
  destruct op as [req d r action ts|rep req b| | | | | | | | | |];
    cbn [run];
    try (exists []; rewrite ?http_world, app_nil_r; split; reflexivity).
  - rewrite http_world.
    destruct (track_pixel_alerts req d r action ts w) as [l [E F]].
    exists l. split; [exact E|]. apply Forall_False_nil. exact F.
  - rewrite http_world. apply track_report_alerts.
Qed.

(** X4.  Incidents come from forward reports only; the incident is of type
    UNAUTHORIZED_FORWARDING, severity CRITICAL, status open, for the
    reported document, from the reporting recipient to the forward's
    target (an empty text stored as NULL). *)
Theorem incidents_written_by op w :
  exists added,
    incidents (db (snd (run env op w))) = incidents (db w) ++ added
    /\ match op with
       | POST_track forward _ b => Forall (incident_of_forward b) added
       | _ => added = []
       end.
Proof.
  destruct op as [req d r action ts|rep req b| | | | | | | | | |];
    cbn [run];
    try (exists []; rewrite ?http_world, app_nil_r; split; reflexivity).
  - rewrite http_world.
    destruct (track_pixel_incidents req d r action ts w) as [l [E F]].
    exists l. split; [exact E|]. apply Forall_False_nil. exact F.
  - rewrite http_world.
    destruct (track_report_incidents rep req b w) as [l [E F]].
    exists l. split; [exact E|].
    destruct rep;
      try (destruct l; [reflexivity|]; inversion F as [|? ? [Hf _] _];
           discriminate Hf).
    eapply Forall_impl; [|exact F]. intros row [_ H]. exact H.
Qed.

End AlertsAndIncidents.

(* ================================================================= *)
(** ** Further properties: keys and references *)

Section Preserves.

Context (I : Db -> Prop).

Lemma preserves_same {A} (m : M A) :
  (forall w, db (snd (m w)) = db w) -> preserves I m.
Proof. intros Hm w Hw. rewrite Hm. exact Hw. Qed.

Lemma preserves_bind {A B} (m : M A) (k : A -> M B) :
  preserves I m -> (forall a, preserves I (k a)) -> preserves I (bind m k).
Proof.
  intros Hm Hk w Hw. unfold bind. specialize (Hm w Hw).
  destruct (m w) as [[a|e] w1]; cbn [snd] in *; [apply Hk|]; assumption.
Qed.

Lemma preserves_if {A} (c : bool) (m1 m2 : M A) :
  preserves I m1 -> preserves I m2 -> preserves I (if c then m1 else m2).
Proof. destruct c; trivial. Qed.

End Preserves.

Ltac keep_with leaf :=
  repeat first
    [ apply preserves_same; intro; reflexivity
    | leaf
    | apply preserves_bind; [|intro]
    | apply preserves_if
    | match goal with
      | |- preserves _ (match ?x with _ => _ end) => destruct x
      end ].

Lemma not_among x l : existsb (String.eqb x) l = false -> ~ In x l.
Proof.
  intros H Hin. apply Bool.not_true_iff_false in H. apply H.
  apply existsb_exists. exists x. split; [exact Hin|apply String.eqb_refl].
Qed.

Lemma among x l : existsb (String.eqb x) l = true -> In x l.
Proof.
  intro H. apply existsb_exists in H. destruct H as [y [Hy Heq]].
  apply String.eqb_eq in Heq. subst y. exact Hy.
Qed.

Lemma NoDup_snoc {X} (l : list X) x : NoDup l -> ~ In x l -> NoDup (l ++ [x]).
Proof.
  intros Hl Hx. apply NoDup_rev in Hl. rewrite <- (rev_involutive (l ++ [x])).
  apply NoDup_rev. rewrite rev_app_distr. cbn [rev app].
  constructor; [|exact Hl]. rewrite <- in_rev. exact Hx.
Qed.

Section Consistency.

Variable env : Env.

Lemma insertEvent_keys record : preserves keys_unique (insertEventStmt_run env record).
Proof.
  intros w Hw. unfold insertEventStmt_run.
  destruct (ev_documentId record) as [| |d]; try exact Hw.
  destruct (ev_recipientId record) as [| |r]; try exact Hw.
  unfold bind, get_world. destruct (existsb _ _) eqn:E; [exact Hw|].
  cbn. destruct Hw as [He [Ha Hi]]. repeat split; try assumption.
  cbn [events add_event]. rewrite map_app. cbn [map row_id event_row].
  apply NoDup_snoc; [exact He|apply not_among; exact E].
Qed.

Lemma insertAlert_keys record : preserves keys_unique (insertAlertStmt_run env record).
Proof.
  intros w Hw. unfold insertAlertStmt_run, bind, get_world.
  destruct (existsb _ _) eqn:E; cbn [orb]; [exact Hw|].
  destruct (negb _); [exact Hw|].
  cbn. destruct Hw as [He [Ha Hi]]. repeat split; try assumption.
  cbn [alerts add_alert]. rewrite map_app. cbn [map arow_alert].
  apply NoDup_snoc; [exact Ha|apply not_among; exact E].
Qed.

Lemma insertIncident_keys record :
  preserves keys_unique (insertIncidentStmt_run env record).
Proof.
  intros w Hw. unfold insertIncidentStmt_run.
  destruct (inc_documentId record) as [| |d]; try exact Hw.
  unfold bind, get_world. destruct (existsb _ _) eqn:E; [exact Hw|].
  cbn. destruct Hw as [He [Ha Hi]]. repeat split; try assumption.
  cbn [incidents add_incident]. rewrite map_app. cbn [map irow_id incident_row].
  apply NoDup_snoc; [exact Hi|apply not_among; exact E].
Qed.

Lemma insertEvent_references record :
  preserves alerts_reference_events (insertEventStmt_run env record).
Proof.
  intros w Hw. unfold insertEventStmt_run.
  destruct (ev_documentId record) as [| |d]; try exact Hw.
  destruct (ev_recipientId record) as [| |r]; try exact Hw.
  unfold bind, get_world. destruct (existsb _ _) eqn:E; [exact Hw|].
  cbn. intros a e Ha He. cbn [events alerts add_event] in *.
  rewrite map_app. apply in_or_app. left. eapply Hw; eassumption.
Qed.

Lemma insertAlert_references record :
  preserves alerts_reference_events (insertAlertStmt_run env record).
Proof.
  intros w Hw. unfold insertAlertStmt_run, bind, get_world.
  destruct (existsb _ _); cbn [orb]; [exact Hw|].
  destruct (al_eventId record) as [e0|] eqn:E0.
  - destruct (existsb (String.eqb e0) _) eqn:Ek; cbn [negb]; [|exact Hw].
    cbn. intros a e Ha He. cbn [events alerts add_alert] in *.
    apply in_app_or in Ha. destruct Ha as [Ha|[<-|[]]].
    + eapply Hw; eassumption.
    + cbn [arow_alert] in He. rewrite E0 in He. injection He as <-.
      apply among. exact Ek.
  - cbn. intros a e Ha He. cbn [events alerts add_alert] in *.
    apply in_app_or in Ha. destruct Ha as [Ha|[<-|[]]].
    + eapply Hw; eassumption.
    + cbn [arow_alert] in He. congruence.
Qed.

Lemma insertIncident_references record :
  preserves alerts_reference_events (insertIncidentStmt_run env record).
Proof.
  intros w Hw. unfold insertIncidentStmt_run.
  destruct (inc_documentId record) as [| |d]; try exact Hw.
  unfold bind, get_world. destruct (existsb _ _) eqn:E; exact Hw.
Qed.

Lemma checkForAnomalies_preserves I event r :
  preserves I (checkForAnomalies env event r).
Proof. apply preserves_same. apply checkForAnomalies_reads_only. Qed.

Ltac unfold_save :=
  unfold saveEvent, saveAlert, saveIncident, or_randomUUID, or_now,
    crypto_randomUUID, Date_now, toISOString, broadcastToAdmins, ret, throw.

Ltac keys_leaf :=
  first [ apply insertEvent_keys | apply insertAlert_keys
        | apply insertIncident_keys | apply checkForAnomalies_preserves ].

Ltac references_leaf :=
  first [ apply insertEvent_references | apply insertAlert_references
        | apply insertIncident_references | apply checkForAnomalies_preserves ].

Ltac unfold_report rep :=
  destruct rep; cbn [track_report];
  [ unfold track_document_open | unfold track_page_view
  | unfold track_download | unfold track_print
  | unfold track_forward | unfold track_copy ].

Lemma run_preserves (I : Db -> Prop) :
  (forall req d r action ts, preserves I (track_pixel env req d r action ts)) ->
  (forall rep req b, preserves I (track_report env rep req b)) ->
  forall w w', steps env w w' -> I (db w) -> I (db w').
Proof.
  intros Hpixel Hreport w w' Hsteps.
  induction Hsteps as [w|w w1 w2 _ IH [op Hop]]; [trivial|].
  intro Hw. specialize (IH Hw). subst w2.
  destruct op; cbn [run]; rewrite ?http_world; try exact IH.
  - apply Hpixel. exact IH.
  - apply Hreport. exact IH.
Qed.

(** X5.  No two rows of a table ever share an id: a request whose generated
    id is already taken is refused by the INSERT. *)
Theorem primary_keys_stay_unique w w' :
  steps env w w' -> keys_unique (db w) -> keys_unique (db w').
Proof.
  apply run_preserves.
  - intros. unfold track_pixel. unfold_save. keep_with keys_leaf.
  - intros. unfold_report rep; unfold_save; keep_with keys_leaf.
Qed.

(** X6.  An alert never points to an event that is not stored. *)
Theorem alerts_keep_referencing_events w w' :
  steps env w w' ->
  alerts_reference_events (db w) -> alerts_reference_events (db w').
Proof.
  apply run_preserves.
  - intros. unfold track_pixel. unfold_save. keep_with references_leaf.
  - intros. unfold_report rep; unfold_save; keep_with references_leaf.
Qed.

End Consistency.

(* ================================================================= *)
(** ** Further properties: reports that raise an alert *)

Section AlertingReports.

Variable env : Env.

(** A download or print report with both ids, whose event id is new:
    the event is stored; then the alert is stored and the request
    acknowledged, or -- its id being taken -- the alert is refused and
    the request fails with the event left in the table. *)
Lemma track_alerting_run rep req b w d r :
  rep = download \/ rep = print ->
  documentId b = Val d ->
  recipientId b = Val r ->
  unused (randomUUID env (draws w)) (map row_id (events (db w))) ->
  let out := track_report env rep req b w in
  exists row,
    events (db (snd out)) = events (db w) ++ [row]
    /\ row_id row = randomUUID env (draws w)
    /\ row_type row = report_type rep
    /\ row_documentId row = d
    /\ row_recipientId row = r
    /\ incidents (db (snd out)) = incidents (db w)
    /\ if existsb (String.eqb (randomUUID env (S (draws w))))
                  (map (fun a => al_id (arow_alert a)) (alerts (db w)))
       then (exists e, fst out = Thrown e)
            /\ alerts (db (snd out)) = alerts (db w)
            /\ sent (snd out) = sent w
       else exists alert,
            fst out = Returned (json (match rep with
                                      | print => PrintAck true true
                                      | _ => Ack true
                                      end))
            /\ alerts (db (snd out)) = alerts (db w) ++ [alert]
            /\ al_id (arow_alert alert) = randomUUID env (S (draws w))
            /\ al_eventId (arow_alert alert) = Some (row_id row)
            /\ al_documentId (arow_alert alert) = or_null (Val d)
            /\ al_recipientId (arow_alert alert) = or_null (Val r)
            /\ alert_of_report rep alert.
Proof.
  intros Hrep Hd Hr He out. unfold unused in He.
  assert (H : out = track_report env rep req b w) by reflexivity.
  clearbody out.
  destruct Hrep as [-> | ->]; cbn [track_report report_type] in *;
    [unfold track_download in H | unfold track_print in H];
    unfold bind at 1 2 in H; cbn [crypto_randomUUID Date_now] in H;
    unfold bind at 1 in H; erewrite saveEvent_run in H by reflexivity;
    cbn [init_documentId init_recipientId] in H; rewrite Hd, Hr in H;
    cbn [db next_tick next_draw] in H; rewrite He in H; cbv zeta in H;
    (match type of H with
     | context [event_record ?i ?id ?t] =>
         set (record := event_record i id t) in H
     end);
    (match type of H with
     | context [Persisted ?x] => set (row := x) in H
     end);
    exists row;
    unfold bind at 1 in H; cbn [crypto_randomUUID] in H;
    unfold bind at 1 in H;
    cbn [draws ticks add_log set_db next_tick next_draw] in H;
    erewrite saveAlert_run in H by reflexivity; cbv zeta in H;
    cbn [db add_log set_db next_tick next_draw add_event alerts events
         al_eventId alert_record ainit_eventId] in H;
    change (ev_id record) with (randomUUID env (draws w)) in H;
    rewrite or_null_drawn in H;
    rewrite (key_of_last_row _ _ row) in H by reflexivity;
    cbn [negb] in H; rewrite Bool.orb_false_r in H; clear He;
    (destruct (existsb (String.eqb (randomUUID env (S (draws w)))) _);
     [ subst out;
       cbn [fst snd db add_log set_db next_tick next_draw add_event events
            incidents alerts sent];
       repeat split; eexists; reflexivity
     | unfold bind in H; cbn [broadcastToAdmins ret] in H; subst out;
       cbn [fst snd db add_sent add_log set_db next_tick next_draw add_event
            add_alert events incidents alerts];
       repeat split;
       eexists; split; [reflexivity|];
       split; [reflexivity|]; split; [reflexivity|];
       split; [apply or_null_drawn|];
       split; [reflexivity|]; split; [reflexivity|];
       unfold alert_of_report; cbn;
       split; [first [apply message_nonempty; discriminate | discriminate]
              | repeat split] ]).
Qed.

Lemma or_null_text (s : string) :
  (s <> "" -> or_null (Val s) = Some s)
  /\ (s = "" -> or_null (Val s) = None).
Proof.
  unfold or_null, truthy.
  destruct (String.eqb_spec s ""); cbn [negb]; split; intros; congruence.
Qed.

(** X7.  A download or print report that carries both ids, with new
    generated ids, is acknowledged and writes exactly one event of its
    type and exactly one alert, and no incident.  The event stores the
    two ids as given; the alert names the event, and passes the two ids
    through [|| null]: the id itself when it is not the empty text,
    NULL when it is. *)
Theorem alerting_report_writes_event_and_alert rep req b w d r :
  rep = download \/ rep = print ->
  documentId b = Val d ->
  recipientId b = Val r ->
  unused (randomUUID env (draws w)) (map row_id (events (db w))) ->
  unused (randomUUID env (S (draws w)))
         (map (fun a => al_id (arow_alert a)) (alerts (db w))) ->
  let out := run env (POST_track rep req b) w in
  exists row alert,
    fst out = Some (json (match rep with
                          | print => PrintAck true true
                          | _ => Ack true
                          end))
    /\ events (db (snd out)) = events (db w) ++ [row]
    /\ alerts (db (snd out)) = alerts (db w) ++ [alert]
    /\ incidents (db (snd out)) = incidents (db w)
    /\ row_type row = report_type rep
    /\ row_documentId row = d
    /\ row_recipientId row = r
    /\ al_eventId (arow_alert alert) = Some (row_id row)
    /\ (d <> "" -> al_documentId (arow_alert alert) = Some d)
    /\ (d = "" -> al_documentId (arow_alert alert) = None)
    /\ (r <> "" -> al_recipientId (arow_alert alert) = Some r)
    /\ (r = "" -> al_recipientId (arow_alert alert) = None)
    /\ alert_of_report rep alert.
Proof.
  intros Hrep Hd Hr He Ha out. unfold unused in Ha.
  destruct (track_alerting_run rep req b w d r Hrep Hd Hr He)
    as (row & Hev & _ & Hty & Hdoc & Hrcp & Hinc & Halert).
  rewrite Ha in Halert.
  destruct Halert as (alert & Hres & Hal & _ & H1 & H2 & H3 & H4).
  subst out. cbn [run]. rewrite http_run, express_world, express_fst.
  cbn [fst snd]. rewrite Hres.
  exists row, alert.
  do 8 (split; [first [reflexivity|assumption]|]).
  rewrite H2, H3.
  repeat (split; [apply or_null_text|]).
  assumption.
Qed.

(** X8.  There is no rollback: when the alert of a download or print report
    is refused (its generated id is taken), the request fails with a
    500 and nothing is broadcast, but the event stays stored. *)
Theorem refused_alert_leaves_the_event rep req b w d r :
  rep = download \/ rep = print ->
  documentId b = Val d ->
  recipientId b = Val r ->
  unused (randomUUID env (draws w)) (map row_id (events (db w))) ->
  In (randomUUID env (S (draws w)))
     (map (fun a => al_id (arow_alert a)) (alerts (db w))) ->
  let out := run env (POST_track rep req b) w in
  exists row,
    fst out = Some error_500
    /\ events (db (snd out)) = events (db w) ++ [row]
    /\ row_type row = report_type rep
    /\ alerts (db (snd out)) = alerts (db w)
    /\ sent (snd out) = sent w.
Proof.
  intros Hrep Hd Hr He Ha out.
  destruct (track_alerting_run rep req b w d r Hrep Hd Hr He)
    as (row & Hev & _ & Hty & _ & _ & _ & Halert).
  destruct (existsb _ _) eqn:E.
  - destruct Halert as ([e Hres] & Hal & Hsent).
    subst out. cbn [run]. rewrite http_run, express_world, express_fst.
    cbn [fst snd]. rewrite Hres.
    exists row. repeat split; assumption.
  - exfalso. revert Ha. apply not_among. exact E.
Qed.

End AlertingReports.

(* ================================================================= *)
(** ** Further properties: a number written in decimal and read back *)

Lemma leading_digits_decimal d : forall a,
  leading_digits 10 (NilEmpty.string_of_uint d) (Some a)
  = Some (decimal_value d a).
Proof.
  induction d; intro a; cbn [NilEmpty.string_of_uint decimal_value];
    [reflexivity | ..];
    cbn [leading_digits]; apply IHd.
Qed.

Lemma leading_digits_start d :
  d <> Decimal.Nil ->
  leading_digits 10 (NilEmpty.string_of_uint d) None
  = Some (decimal_value d 0).
Proof.
  destruct d; [congruence | ..]; intros _;
    cbn [NilEmpty.string_of_uint decimal_value leading_digits];
    apply leading_digits_decimal.
Qed.

Lemma of_uint_acc_decimal d : forall acc,
  Z.pos (Pos.of_uint_acc d acc) = decimal_value d (Z.pos acc).
Proof.
  induction d; intro acc; cbn [Pos.of_uint_acc decimal_value];
    [reflexivity | ..];
    rewrite IHd; f_equal; lia.
Qed.

Lemma of_uint_decimal d : Z.of_N (Pos.of_uint d) = decimal_value d 0.
Proof.
  induction d; cbn [Pos.of_uint decimal_value];
    [reflexivity | exact IHd | ..];
    cbn [Z.of_N]; apply of_uint_acc_decimal.
Qed.

Lemma decimal_value_to_uint p : decimal_value (Pos.to_uint p) 0 = Z.pos p.
Proof. rewrite <- of_uint_decimal, Unsigned.of_to. reflexivity. Qed.

Lemma parseInt_digits d :
  d <> Decimal.Nil ->
  parseInt (NilEmpty.string_of_uint d) = Some (1 * decimal_value d 0)
  /\ parseInt (String "-" (NilEmpty.string_of_uint d))
     = Some (-1 * decimal_value d 0).
Proof.
  intro Hd. pose proof (leading_digits_start d Hd) as H.
  assert (Hread : forall s v,
             leading_digits 10 s None = Some v ->
             match leading_digits 10 s None with
             | Some v0 => Some (1 * v0)
             | None => None
             end = Some (1 * v)
             /\ match leading_digits 10 s None with
                | Some v0 => Some (-1 * v0)
                | None => None
                end = Some (-1 * v)).
  { intros s v ->. split; reflexivity. }
  destruct d as [|d|d|d|d|d|d|d|d|d|d]; [congruence | ..];
    cbn [NilEmpty.string_of_uint] in H |- *;
    try (apply Hread in H; exact H).
  destruct d; cbn [NilEmpty.string_of_uint] in H |- *;
    apply Hread in H; exact H.
Qed.

Lemma parseInt_string_of_Z n : parseInt (string_of_Z n) = Some n.
Proof.
  unfold string_of_Z. destruct n as [|p|p]; [reflexivity | |];
    cbn [Z.to_int NilZero.string_of_int NilZero.string_of_uint];
    pose proof (Unsigned.to_uint_nonnil p) as Hp;
    destruct (parseInt_digits (Pos.to_uint p) Hp) as [H1 H2];
    rewrite decimal_value_to_uint in H1, H2.
  - destruct (Pos.to_uint p); [congruence | exact H1 ..].
  - destruct (Pos.to_uint p); [congruence | exact H2 ..].
Qed.

(** X9.  A beacon whose [ts] is a nonzero time value written in decimal, as
    the email's pixel URL carries [Date.now()], is stored with exactly
    that time value as its timestamp -- provided the value is a valid
    date and the generated id is new. *)
Theorem beacon_keeps_the_senders_clock env req d r action t w :
  t <> 0 ->
  - MAX_TIME <= t <= MAX_TIME ->
  unused (randomUUID env (draws w)) (map row_id (events (db w))) ->
  let out := run env (GET_pixel req d r action (Val (string_of_Z t))) w in
  fst out = Some pixel_response
  /\ exists row,
       events (db (snd out)) = events (db w) ++ [row]
       /\ row_type row = pixel_beacon
       /\ row_documentId row = d
       /\ row_recipientId row = r
       /\ row_timestamp row = t.
Proof.
  intros Ht Hrange Hid out. unfold unused in Hid.
  pose proof (track_pixel_run env req d r action (Val (string_of_Z t)) w) as H.
  cbv zeta in H.
  assert (Htime : beacon_time env (Val (string_of_Z t)) w = t).
  { unfold beacon_time, parseInt_param. cbn [template].
    rewrite parseInt_string_of_Z.
    destruct (Z.eqb_spec t 0); [contradiction|reflexivity]. }
  assert (Hok : beacon_storable env (Val (string_of_Z t)) w = true).
  { unfold beacon_storable. rewrite Htime, Hid. unfold valid_time.
    apply andb_true_intro. split; [|reflexivity].
    apply andb_true_intro. split; apply Z.leb_le; lia. }
  rewrite Hok, Htime in H.
  destruct H as [Hres [row [Hev [Hty [Hd [Hr Hts]]]]]].
  subst out. cbn [run]. rewrite http_run, express_world, express_fst.
  cbn [fst snd]. rewrite Hres. split; [reflexivity|].
  exists row. repeat split; assumption.
Qed.

(* ================================================================= *)
(** ** Further properties: the query endpoints *)

Lemma counts_by_type rows :
  (count_type document_opened rows + count_type document_downloaded rows
   + count_type document_printed rows + count_type document_forwarded rows
   + count_type copy_attempt rows <= List.length rows)%nat.
Proof.
  unfold count_type. induction rows as [|e rows IH]; [apply Nat.le_refl|].
  cbn [filter List.length]. destruct (row_type e); cbn [EventType_eqb List.length]; lia.
Qed.

(** X10.  The events listing of a document: the rows of that document, the
    100 newest at most; the summary counts what is listed (so opens,
    downloads, prints, forwards and copies together never exceed
    totalEvents, which itself stops at 100). *)
Theorem document_events_listing env d w :
  exists rows summary,
    fst (run env (GET_document_events d) w)
    = Some (json (DocumentEvents d rows summary))
    /\ snd (run env (GET_document_events d) w) = w
    /\ List.length rows
       = Nat.min 100 (List.length (filter (of_document d) (events (db w))))
    /\ (forall row, In row rows ->
                    In row (events (db w)) /\ row_documentId row = d)
    /\ totalEvents summary = List.length rows
    /\ (opens summary + downloads summary + prints summary
        + forwards summary + copies summary <= totalEvents summary)%nat.
Proof.
  do 2 eexists. split; [reflexivity|]. split; [reflexivity|].
  split; [|split; [|split]].
  - rewrite length_firstn, order_by_desc_length. reflexivity.
  - intros row Hin. apply firstn_In, order_by_desc_In, filter_In in Hin.
    destruct Hin as [Hin Hd]. split; [exact Hin|].
    apply String.eqb_eq. exact Hd.
  - reflexivity.
  - cbn [opens downloads prints forwards copies totalEvents].
    apply counts_by_type.
Qed.

(** X11.  The events listing of a recipient: that recipient's rows, the 50
    newest at most; "suspicious" are exactly the listed rows whose risk
    is high or critical. *)
Theorem recipient_events_listing env r w :
  exists rows suspicious,
    fst (run env (GET_recipient_events r) w)
    = Some (json (RecipientEvents r (List.length rows) rows suspicious))
    /\ List.length rows
       = Nat.min 50 (List.length (filter (of_recipient r) (events (db w))))
    /\ (forall row, In row rows ->
                    In row (events (db w)) /\ row_recipientId row = r)
    /\ (forall row, In row suspicious <->
                    In row rows
                    /\ (row_risk row = Some "high"
                        \/ row_risk row = Some "critical")).
Proof.
  do 2 eexists. split; [reflexivity|].
  split; [|split].
  - rewrite length_firstn, order_by_desc_length. reflexivity.
  - intros row Hin. apply firstn_In, order_by_desc_In, filter_In in Hin.
    destruct Hin as [Hin Hd]. split; [exact Hin|].
    apply String.eqb_eq. exact Hd.
  - intro row. rewrite filter_In. unfold is_suspicious.
    split; intros [Hin Hrisk]; (split; [exact Hin|]).
    + destruct (row_risk row) as [s|]; [|discriminate].
      apply Bool.orb_true_iff in Hrisk.
      destruct Hrisk as [H|H]; apply String.eqb_eq in H; subst s; auto.
    + destruct Hrisk as [-> | ->]; reflexivity.
Qed.

(** X12.  The tracking summary of a document counts all its events and
    incidents (no limit), shows the 50 newest events, and knows two
    risk levels: CRITICAL when the document has an incident, MEDIUM
    otherwise -- also for a document without any event. *)
Theorem tracking_summary_levels env d w :
  exists s,
    fst (run env (GET_tracking_summary d) w)
    = Some (json (DocumentTracking d s))
    /\ ts_totalEvents s
       = List.length (filter (of_document d) (events (db w)))
    /\ ts_incidents s
       = List.length (filter (fun i => String.eqb (irow_documentId i) d)
                             (incidents (db w)))
    /\ List.length (ts_timeline s) = Nat.min 50 (ts_totalEvents s)
    /\ (ts_lastActivity s = None <-> ts_totalEvents s = 0%nat)
    /\ ((exists i, In i (incidents (db w)) /\ irow_documentId i = d)
        -> ts_riskLevel s = "CRITICAL")
    /\ ((forall i, In i (incidents (db w)) -> irow_documentId i <> d)
        -> ts_riskLevel s = "MEDIUM").
Proof.
  eexists. split; [reflexivity|].
  cbn [ts_totalEvents ts_incidents ts_timeline ts_lastActivity ts_riskLevel].
  rewrite !order_by_desc_length.
  split; [reflexivity|]. split; [reflexivity|].
  split; [rewrite length_firstn, order_by_desc_length; reflexivity|].
  split; [|split].
  - rewrite <- (order_by_desc_length (newer_event env)).
    destruct (order_by_desc _ _); cbn [List.length];
      split; intro H; first [reflexivity | discriminate H].
  - intros [i [Hin Hd]].
    assert (Hf : In i (filter (fun i => String.eqb (irow_documentId i) d)
                              (incidents (db w)))).
    { apply filter_In. split; [exact Hin|]. apply String.eqb_eq. exact Hd. }
    destruct (filter _ (incidents (db w))); [destruct Hf|reflexivity].
  - intro Hnone.
    destruct (filter _ (incidents (db w))) as [|i l] eqn:E; [reflexivity|].
    exfalso. assert (Hin : In i (i :: l)) by (left; reflexivity).
    rewrite <- E in Hin. apply filter_In in Hin. destruct Hin as [Hin Hd].
    apply String.eqb_eq in Hd. exact (Hnone i Hin Hd).
Qed.

Lemma incidents_grow env w w' :
  steps env w w' ->
  exists added, incidents (db w') = incidents (db w) ++ added.
Proof.
  induction 1 as [w|w w1 w2 _ [l1 IH] [op Hop]].
  - exists []. rewrite app_nil_r. reflexivity.
  - assert (H : exists l2, incidents (db w2) = incidents (db w1) ++ l2).
    { subst w2.
      destruct op as [req d r action ts|rep req b| | | | | | | | | |];
        cbn [run]; rewrite ?http_world;
        try (exists []; rewrite app_nil_r; reflexivity).
      - destruct (track_pixel_incidents env req d r action ts w1) as [l [E _]].
        exists l. exact E.
      - destruct (track_report_incidents env rep req b w1) as [l [E _]].
        exists l. exact E. }
    destruct H as [l2 E]. exists (l1 ++ l2).
    rewrite E, IH, app_assoc. reflexivity.
Qed.

Lemma reported_risk_level_critical env d w :
  (exists i, In i (incidents (db w)) /\ irow_documentId i = d) ->
  reported_risk_level env d w = Some "CRITICAL".
Proof.
  intros [i [Hin Hd]]. unfold reported_risk_level. cbn.
  rewrite order_by_desc_length.
  assert (Hf : In i (filter (fun i => String.eqb (irow_documentId i) d)
                            (incidents (db w)))).
  { apply filter_In. split; [exact Hin|]. apply String.eqb_eq. exact Hd. }
  destruct (filter _ (incidents (db w))); [destruct Hf|reflexivity].
Qed.

(** X13.  Once a forward of a document has been stored, the document's
    tracking summary says CRITICAL in every later state of the server:
    nothing lowers the level again. *)
Theorem forwarded_document_stays_critical env req b w d r w' :
  documentId b = Val d ->
  recipientId b = Val r ->
  unused (randomUUID env (draws w)) (map row_id (events (db w))) ->
  unused (randomUUID env (S (draws w))) (map irow_id (incidents (db w))) ->
  unused (randomUUID env (S (S (draws w))))
         (map (fun a => al_id (arow_alert a)) (alerts (db w))) ->
  steps env (snd (run env (POST_track forward req b) w)) w' ->
  reported_risk_level env d w' = Some "CRITICAL".
Proof.
  intros Hd Hr He Hi Ha Hsteps.
  destruct (track_forward_run env req b w d r Hd Hr He Hi Ha)
    as (w1 & event & incident & alert & Hrun & _ & Hinc & _).
  destruct (track_report_incidents env forward req b w) as [l [E F]].
  cbn [track_report] in E. rewrite Hrun in E. cbn [snd] in E.
  unfold stored_incidents in E. rewrite Hinc in E.
  apply app_inv_head in E. subst l.
  inversion F as [|? ? [_ Hshape] _]. subst.
  destruct Hshape as (_ & _ & _ & Hdoc & _).
  rewrite Hd in Hdoc. injection Hdoc as Hdoc.
  cbn [run track_report] in Hsteps. rewrite http_world, Hrun in Hsteps.
  cbn [snd] in Hsteps.
  destruct (incidents_grow env w1 w' Hsteps) as [added Hgrow].
  apply reported_risk_level_critical. exists incident. split.
  - rewrite Hgrow, Hinc. apply in_or_app. left. apply in_or_app. right.
    left. reflexivity.
  - symmetry. exact Hdoc.
Qed.

(* ================================================================= *)
(** ** Further properties: the email summary *)

Section EmailSummary.

Variable env : Env.

Lemma filter_type_app t (p : EventRow -> bool) l added :
  Forall uncounted added ->
  t = document_opened \/ t = document_downloaded \/ t = document_printed
  \/ t = document_forwarded ->
  filter (fun ev => EventType_eqb (row_type ev) t) (filter p (l ++ added))
  = filter (fun ev => EventType_eqb (row_type ev) t) (filter p l).
Proof.
  intros Hadded Ht. rewrite !filter_app.
  assert (Hnil : filter (fun ev => EventType_eqb (row_type ev) t)
                        (filter p added) = []).
  { induction Hadded as [|row added Hrow _ IH]; [reflexivity|].
    cbn [filter]. destruct (p row); [|exact IH].
    cbn [filter]. rewrite IH.
    destruct Hrow as [-> | [-> | ->]];
      destruct Ht as [-> | [-> | [-> | ->]]]; reflexivity. }
  rewrite Hnil, app_nil_r. reflexivity.
Qed.

Lemma get_emails_same w w' added :
  emails (db w') = emails (db w) ->
  events (db w') = events (db w) ++ added ->
  Forall uncounted added ->
  fst (run env GET_emails w') = fst (run env GET_emails w).
Proof.
  intros Hemails Hevents Hadded.
  cbn [run]. rewrite !http_run. cbn [fst].
  unfold express, get_emails, bind, get_world, ret. cbn [fst].
  rewrite Hemails, Hevents. do 5 f_equal.
  apply map_ext. intro e. unfold count_type.
  rewrite !filter_type_app by auto. reflexivity.
Qed.

Ltac quiet_leaf :=
  first
    [ apply (saveEvent_keeps env emails); reflexivity
    | eapply grows_weaken; [|apply saveEvent_grows];
      cbn beta; intros ? [Ht _]; unfold uncounted; rewrite Ht; auto ].

Lemma uncounted_reports rep req b :
  rep = page_view \/ rep = copy ->
  grows stored_events uncounted (track_report env rep req b)
  /\ grows (fun w => emails (db w)) (fun _ => False)
           (track_report env rep req b).
Proof.
  intros [-> | ->]; cbn [track_report];
    [unfold track_page_view | unfold track_copy];
    split; grow_with quiet_leaf.
Qed.

Lemma uncounted_pixel req d r action ts :
  grows stored_events uncounted (track_pixel env req d r action ts)
  /\ grows (fun w => emails (db w)) (fun _ => False)
           (track_pixel env req d r action ts).
Proof. unfold track_pixel. split; grow_with quiet_leaf. Qed.

(** X14.  The email summary counts document opens, downloads, prints and
    forwards only: a pixel beacon (the email being opened), a page view
    or a copy attempt leaves every line of the summary as it was. *)
Theorem email_summary_ignores op w :
  match op with
  | GET_pixel _ _ _ _ _ | POST_track page_view _ _ | POST_track copy _ _ =>
      fst (run env GET_emails (snd (run env op w)))
      = fst (run env GET_emails w)
  | _ => True
  end.
Proof.
  destruct op as [req d r action ts|rep req b| | | | | | | | | |];
    try exact I.
  - destruct (uncounted_pixel req d r action ts) as [He Hm].
    destruct (He w) as [added [E F]]. destruct (Hm w) as [l [El Fl]].
    apply Forall_False_nil in Fl. subst l. rewrite app_nil_r in El.
    cbn [run]. rewrite http_world.
    eapply get_emails_same; eassumption.
  - destruct rep; try exact I.
    + destruct (uncounted_reports page_view req b) as [He Hm];
        [left; reflexivity|].
      destruct (He w) as [added [E F]]. destruct (Hm w) as [l [El Fl]].
      apply Forall_False_nil in Fl. subst l. rewrite app_nil_r in El.
      cbn [run]. rewrite http_world.
      eapply get_emails_same; eassumption.
    + destruct (uncounted_reports copy req b) as [He Hm];
        [right; reflexivity|].
      destruct (He w) as [added [E F]]. destruct (Hm w) as [l [El Fl]].
      apply Forall_False_nil in Fl. subst l. rewrite app_nil_r in El.
      cbn [run]. rewrite http_world.
      eapply get_emails_same; eassumption.
Qed.

End EmailSummary.

(** X15.  The query endpoints answer 200 and change nothing: no table, no
    socket, nothing sent, nothing logged, no id drawn. *)
Theorem queries_only_read env op w :
  is_query op = true ->
  let out := run env op w in
  (exists res, fst out = Some res /\ status res = 200)
  /\ db (snd out) = db w
  /\ wss_clients (snd out) = wss_clients w
  /\ clients (snd out) = clients w
  /\ sent (snd out) = sent w
  /\ log (snd out) = log w
  /\ draws (snd out) = draws w.
Proof.
  destruct op; intro Hq; try discriminate Hq; cbv zeta;
    (split; [eexists; split; reflexivity | repeat split]).
Qed.

(* ================================================================= *)
(** ** Further properties: the dashboard sockets *)

Lemma speaks_same {A} (m : M A) :
  (forall w, wss_clients (snd (m w)) = wss_clients w
             /\ clients (snd (m w)) = clients w
             /\ sent (snd (m w)) = sent w) ->
  speaks_to_open m.
Proof.
  intros Hm w. destruct (Hm w) as [H1 [H2 H3]].
  split; [exact H1|]. split; [exact H2|].
  exists []. rewrite app_nil_r. split; [exact H3|constructor].
Qed.

Lemma speaks_bind {A B} (m : M A) (k : A -> M B) :
  speaks_to_open m -> (forall a, speaks_to_open (k a)) ->
  speaks_to_open (bind m k).
Proof.
  intros Hm Hk w. unfold bind.
  destruct (Hm w) as [H1 [H2 [l1 [H3 F1]]]].
  destruct (m w) as [[a|e] w1]; cbn [snd] in *.
  - destruct (Hk a w1) as [K1 [K2 [l2 [K3 F2]]]].
    split; [congruence|]. split; [congruence|].
    exists (l1 ++ l2). split; [rewrite K3, H3, app_assoc; reflexivity|].
    apply Forall_app. split; [exact F1|].
    unfold open_sockets in *. rewrite <- H1. exact F2.
  - split; [exact H1|]. split; [exact H2|]. exists l1. split; assumption.
Qed.

Lemma speaks_if {A} (c : bool) (m1 m2 : M A) :
  speaks_to_open m1 -> speaks_to_open m2 ->
  speaks_to_open (if c then m1 else m2).
Proof. destruct c; trivial. Qed.

Lemma speaks_broadcast message : speaks_to_open (broadcastToAdmins message).
Proof.
  intro w. split; [reflexivity|]. split; [reflexivity|].
  eexists. split; [reflexivity|].
  apply Forall_forall. intros [id m] Hin. cbn [fst].
  apply in_map_iff in Hin. destruct Hin as [c [[= <- _] Hc]].
  unfold open_sockets. apply in_map. exact Hc.
Qed.

Ltac speak :=
  repeat first
    [ apply speaks_same; intro; repeat split; reflexivity
    | apply speaks_broadcast
    | apply speaks_bind; [|intro]
    | apply speaks_if
    | match goal with
      | |- speaks_to_open (match ?x with _ => _ end) => destruct x
      end
    | progress cbv zeta ].

Ltac unfold_handler_code :=
  unfold saveEvent, saveAlert, saveIncident, insertEventStmt_run,
    insertAlertStmt_run, insertIncidentStmt_run, checkForAnomalies,
    select_events_of_recipient, CURRENT_TIMESTAMP, or_randomUUID, or_now,
    toISOString;
  cbn [ev_documentId ev_recipientId inc_documentId event_record
       incident_record].

Section Sockets.

Variable env : Env.

Lemma track_pixel_speaks req d r action ts :
  speaks_to_open (track_pixel env req d r action ts).
Proof. unfold track_pixel. unfold_handler_code. speak. Qed.

Lemma track_report_speaks rep req b :
  speaks_to_open (track_report env rep req b).
Proof.
  destruct rep; cbn [track_report];
    [ unfold track_document_open | unfold track_page_view
    | unfold track_download | unfold track_print
    | unfold track_forward | unfold track_copy ];
    unfold_handler_code; speak.
Qed.

(** X16.  Whatever the server sends, it sends to a socket that is OPEN in
    [wss.clients]: the broadcasts of the handlers skip every socket in
    another state, and the snapshot goes to the socket that has just
    connected. *)
Theorem messages_go_to_open_sockets op w :
  exists added,
    sent (snd (run env op w)) = sent w ++ added
    /\ Forall (fun p => In (fst p) (open_sockets (snd (run env op w)))) added.
Proof.
  destruct op as [req d r action ts|rep req b| | | | | | | |ws|ws|ws];
    cbn [run];
    try (exists []; rewrite app_nil_r; split; [reflexivity|constructor]).
  - rewrite http_world.
    destruct (track_pixel_speaks req d r action ts w) as [H1 [_ [l [H3 F]]]].
    exists l. split; [exact H3|]. unfold open_sockets in *. rewrite H1. exact F.
  - rewrite http_world.
    destruct (track_report_speaks rep req b w) as [H1 [_ [l [H3 F]]]].
    exists l. split; [exact H3|]. unfold open_sockets in *. rewrite H1. exact F.
  - eexists [_]. split; [reflexivity|].
    constructor; [|constructor]. cbn [fst]. unfold open_sockets.
    cbn [socket_event ws_connection snd wss_clients add_sent set_sockets].
    rewrite filter_app, map_app. apply in_or_app. right. left. reflexivity.
Qed.

(** X17.  A dashboard that connects gets one CONNECTED message, and only it
    gets one: the message carries the sizes of the three tables and at
    most 20 events, all of them stored rows; the tables are untouched
    and the socket is registered. *)
Theorem connection_gets_a_snapshot ws w :
  let w' := snd (run env (WS_connection ws) w) in
  exists recent,
    sent w' = sent w ++ [ (ws, CONNECTED (List.length (events (db w)))
                                 (List.length (alerts (db w)))
                                 (List.length (incidents (db w)))
                                 recent) ]
    /\ List.length recent = Nat.min 20 (List.length (events (db w)))
    /\ (forall row, In row recent -> In row (events (db w)))
    /\ db w' = db w
    /\ In ws (clients w')
    /\ In ws (open_sockets w').
Proof.
  cbv zeta. eexists. split; [reflexivity|].
  split; [rewrite length_firstn, order_by_desc_length; reflexivity|].
  split; [intros row Hin; apply firstn_In, order_by_desc_In in Hin; exact Hin|].
  split; [reflexivity|]. split.
  - cbn [run socket_event ws_connection snd clients add_sent set_sockets].
    destruct (existsb (Nat.eqb ws) (clients w)) eqn:E.
    + apply existsb_exists in E. destruct E as [c [Hc Heq]].
      apply Nat.eqb_eq in Heq. subst c. exact Hc.
    + apply in_or_app. right. left. reflexivity.
  - unfold open_sockets.
    cbn [run socket_event ws_connection snd wss_clients add_sent set_sockets].
    rewrite filter_app, map_app. apply in_or_app. right. left. reflexivity.
Qed.

Lemma NoDup_filter {X} (f : X -> bool) l : NoDup l -> NoDup (filter f l).
Proof.
  induction 1 as [|x l Hx _ IH]; cbn [filter]; [constructor|].
  destruct (f x); [|exact IH]. constructor; [|exact IH].
  intro Hin. apply filter_In in Hin. apply Hx. apply Hin.
Qed.

Lemma registry_step op w : registry_ok w -> registry_ok (snd (run env op w)).
Proof.
  intros [Hnd Hincl].
  destruct op as [req d r action ts|rep req b| | | | | | | |ws|ws|ws];
    cbn [run]; rewrite ?http_world;
    try (split; assumption).
  - destruct (track_pixel_speaks req d r action ts w) as [H1 [H2 _]].
    unfold registry_ok. rewrite H1, H2. split; assumption.
  - destruct (track_report_speaks rep req b w) as [H1 [H2 _]].
    unfold registry_ok. rewrite H1, H2. split; assumption.
  - unfold registry_ok.
    cbn [socket_event ws_connection snd clients wss_clients add_sent
         set_sockets].
    rewrite map_app. cbn [map sock_id].
    destruct (existsb (Nat.eqb ws) (clients w)) eqn:E.
    + split; [exact Hnd|]. intros c Hc. apply in_or_app. left.
      apply Hincl. exact Hc.
    + split.
      * apply NoDup_snoc; [exact Hnd|]. intro Hin.
        apply Bool.not_true_iff_false in E. apply E.
        apply existsb_exists. exists ws. split; [exact Hin|apply Nat.eqb_refl].
      * intros c Hc. apply in_app_or in Hc. apply in_or_app.
        destruct Hc as [Hc|Hc]; [left; apply Hincl; exact Hc|right; exact Hc].
  - unfold registry_ok.
    cbn [socket_event ws_close snd clients wss_clients set_sockets].
    split; [apply NoDup_filter; exact Hnd|].
    intros c Hc. apply filter_In in Hc. destruct Hc as [Hc Hne].
    apply Hincl in Hc. apply in_map_iff in Hc. destruct Hc as [s [Hs Hin]].
    apply in_map_iff. exists s. split; [exact Hs|].
    apply filter_In. split; [exact Hin|]. rewrite Hs. exact Hne.
  - unfold registry_ok.
    cbn [socket_event ws_error snd clients wss_clients set_sockets].
    split; [apply NoDup_filter; exact Hnd|].
    intros c Hc. apply filter_In in Hc. apply Hincl. apply Hc.
Qed.

(** X18.  The set of connected dashboards never lists a socket twice and
    never a socket that the WebSocket server no longer holds, whatever
    order connections, closes, errors and requests come in. *)
Theorem registry_stays_consistent w w' :
  steps env w w' -> registry_ok w -> registry_ok w'.
Proof.
  induction 1 as [w|w w1 w2 _ IH [op Hop]]; [trivial|].
  intro Hw. subst w2. apply registry_step. apply IH. exact Hw.
Qed.

(** X19.  A socket that has closed is gone from both collections, so no
    later request sends it anything. *)
Theorem closed_socket_hears_nothing ws w op :
  is_socket_event op = false ->
  let w1 := snd (run env (WS_close ws) w) in
  (In ws (clients w1) -> False)
  /\ (In ws (map sock_id (wss_clients w1)) -> False)
  /\ exists added,
       sent (snd (run env op w1)) = sent w1 ++ added
       /\ Forall (fun p => fst p <> ws) added.
Proof.
  intros Hop w1.
  assert (Hgone : ~ In ws (map sock_id (wss_clients w1))).
  { subst w1. cbn [run socket_event ws_close snd wss_clients set_sockets].
    intro Hin. apply in_map_iff in Hin. destruct Hin as [s [Hs Hin]].
    apply filter_In in Hin. destruct Hin as [_ Hne].
    rewrite Hs, Nat.eqb_refl in Hne. discriminate Hne. }
  split; [|split; [exact Hgone|]].
  - subst w1. cbn [run socket_event ws_close snd clients set_sockets].
    intro Hin. apply filter_In in Hin. destruct Hin as [_ Hne].
    rewrite Nat.eqb_refl in Hne. discriminate Hne.
  - assert (Hopen : forall l : list (nat * Message),
               Forall (fun p => In (fst p) (open_sockets w1)) l ->
               Forall (fun p => fst p <> ws) l).
    { intros l. apply Forall_impl. intros p Hp Heq. rewrite Heq in Hp.
      apply Hgone. unfold open_sockets in Hp. apply in_map_iff in Hp.
      destruct Hp as [s [Hs Hin]]. apply filter_In in Hin.
      apply in_map_iff. exists s. split; [exact Hs|apply Hin]. }
    destruct op as [req d r action ts|rep req b| | | | | | | |ws'|ws'|ws'];
      try discriminate Hop;
      try (exists []; rewrite app_nil_r; split; [reflexivity|constructor]).
    + cbn [run]. rewrite http_world.
      destruct (track_pixel_speaks req d r action ts w1) as [_ [_ [l [H3 F]]]].
      exists l. split; [exact H3|apply Hopen; exact F].
    + cbn [run]. rewrite http_world.
      destruct (track_report_speaks rep req b w1) as [_ [_ [l [H3 F]]]].
      exists l. split; [exact H3|apply Hopen; exact F].
Qed.

End Sockets.

(* ================================================================= *)
(** ** Further properties: the evaluation and the helpers *)

Lemma unusual_location_not_time rows event :
  has_finding "UNUSUAL_TIME" (unusual_location rows event) = false.
Proof.
  unfold unusual_location. destruct (ev_location event); [|reflexivity].
  destruct (_ && _); reflexivity.
Qed.

Lemma rapid_access_not_time rows now :
  has_finding "UNUSUAL_TIME" (rapid_access rows now) = false.
Proof. unfold rapid_access. cbv zeta. destruct (_ <? _)%nat; reflexivity. Qed.

(** X20.  An evaluation reports UNUSUAL_TIME, severity low, exactly when the
    local hour of the event is before 6 or after 22: the hours 6 to 22
    -- 22:59 included -- pass, 23 and 0 to 5 do not. *)
Theorem unusual_time_window env event r w :
  let hour := getHours env (ev_timestamp event) in
  exists anomalies,
    log (snd (checkForAnomalies env event (Val r) w))
    = log w ++ [Evaluated event anomalies]
    /\ (has_finding "UNUSUAL_TIME" anomalies = true
        <-> hour < 6 \/ 22 < hour)
    /\ (has_finding "UNUSUAL_TIME" anomalies = true ->
        exists body, In {| f_type := "UNUSUAL_TIME"; f_severity := "low";
                           f_message := body |} anomalies).
Proof.
  cbv zeta. rewrite checkForAnomalies_run. cbv zeta.
  eexists. split; [destruct (0 <? _)%nat; reflexivity|].
  unfold anomalies_of.
  rewrite !has_finding_app, unusual_location_not_time, rapid_access_not_time.
  rewrite Bool.orb_false_r. cbn [orb]. unfold unusual_time.
  assert (Hin : forall (l1 l3 : list Finding) f, In f (l1 ++ [f] ++ l3))
    by (intros; apply in_or_app; right; left; reflexivity).
  destruct (Z.ltb_spec (getHours env (ev_timestamp event)) 6) as [H6|H6];
    destruct (Z.ltb_spec 22 (getHours env (ev_timestamp event))) as [H22|H22];
    cbn [orb has_finding existsb f_type].
  - split; [split; [intros _; lia|reflexivity]|].
    intros _. eexists. apply Hin.
  - split; [split; [intros _; lia|reflexivity]|].
    intros _. eexists. apply Hin.
  - split; [split; [intros _; lia|reflexivity]|].
    intros _. eexists. apply Hin.
  - split; [split; [discriminate|lia]|discriminate].
Qed.

(** X21.  Findings are told, not kept: an evaluation leaves the three tables
    as they are, logs nothing but itself, and sends ANOMALY_DETECTED --
    with all its findings, to every open socket -- exactly when it has
    at least one finding. *)
Theorem findings_are_only_broadcast env event r w :
  let out := checkForAnomalies env event (Val r) w in
  exists anomalies,
    fst out = Returned tt
    /\ db (snd out) = db w
    /\ log (snd out) = log w ++ [Evaluated event anomalies]
    /\ sent (snd out)
       = sent w ++
         match anomalies with
         | [] => []
         | _ => map (fun id => (id, ANOMALY_DETECTED anomalies event))
                    (open_sockets w)
         end.
Proof.
  cbv zeta. rewrite checkForAnomalies_run. cbv zeta.
  exists (anomalies_of env (rows_of_recipient r w) event (clock env (ticks w))).
  cbn [fst snd]. split; [reflexivity|].
  destruct (anomalies_of env (rows_of_recipient r w) event (clock env (ticks w)))
    as [|f l]; cbn [List.length Nat.ltb Nat.leb].
  - split; [reflexivity|]. split; [reflexivity|].
    cbn [sent add_log next_tick]. rewrite app_nil_r. reflexivity.
  - split; [reflexivity|]. split; [reflexivity|].
    cbn [sent add_sent add_log next_tick wss_clients].
    unfold open_sockets. rewrite map_map. reflexivity.
Qed.

Lemma before_comma_no_comma h : includes "," (before_comma h) = false.
Proof.
  induction h as [|c h IH]; [reflexivity|].
  cbn [before_comma]. destruct (Ascii.eqb_spec c ","); [reflexivity|].
  cbn [includes prefix]. rewrite IH.
  destruct (Ascii.ascii_dec "," c) as [E|E]; [congruence|].
  rewrite Bool.orb_false_r. reflexivity.
Qed.

Lemma before_comma_prefix h : prefix (before_comma h) h = true.
Proof.
  induction h as [|c h IH]; [reflexivity|].
  cbn [before_comma]. destruct (Ascii.eqb c ","); [reflexivity|].
  cbn [prefix]. destruct (Ascii.ascii_dec c c); [exact IH|congruence].
Qed.

(** X22.  With an x-forwarded-for header whose first entry is not empty, the
    client address is that first entry -- the text before the first
    comma -- whatever the socket's own address is. *)
Theorem forwarded_header_names_the_client req h :
  x_forwarded_for req = Val h ->
  before_comma h <> "" ->
  getClientIP req = before_comma h
  /\ prefix (getClientIP req) h = true
  /\ includes "," (getClientIP req) = false.
Proof.
  intros Hh Hne.
  assert (E : getClientIP req = before_comma h).
  { unfold getClientIP. rewrite Hh. unfold or_null, truthy.
    destruct (String.eqb_spec (before_comma h) ""); [contradiction|].
    reflexivity. }
  rewrite E. split; [reflexivity|].
  split; [apply before_comma_prefix|apply before_comma_no_comma].
Qed.

(* ================================================================= *)
(** ** Further properties at concrete requests *)

Lemma one_step env op w : steps env w (snd (run env op w)).
Proof. eapply steps_next; [apply steps_refl|]. exists op. reflexivity. Qed.

Lemma primary_keys_stay_unique_witness :
  steps demo_env boot after_one_download
  /\ keys_unique (db boot)
  /\ keys_unique (db after_one_download).
Proof.
  assert (H1 : steps demo_env boot after_one_download) by apply one_step.
  assert (H2 : keys_unique (db boot)) by (repeat split; constructor).
  split; [exact H1|]. split; [exact H2|].
  exact (primary_keys_stay_unique demo_env boot after_one_download H1 H2).
Defined.

Lemma alerts_keep_referencing_events_witness :
  steps demo_env boot after_one_download
  /\ alerts_reference_events (db boot)
  /\ alerts_reference_events (db after_one_download).
Proof.
  assert (H1 : steps demo_env boot after_one_download) by apply one_step.
  assert (H2 : alerts_reference_events (db boot)) by (intros a e []).
  split; [exact H1|]. split; [exact H2|].
  exact (alerts_keep_referencing_events demo_env boot after_one_download H1 H2).
Defined.

Lemma alerting_report_writes_event_and_alert_witness :
  let out := run demo_env download_report boot in
  exists row alert,
    fst out = Some (json (Ack true))
    /\ events (db (snd out)) = events (db boot) ++ [row]
    /\ alerts (db (snd out)) = alerts (db boot) ++ [alert]
    /\ incidents (db (snd out)) = incidents (db boot)
    /\ row_type row = report_type download
    /\ row_documentId row = "d1"
    /\ row_recipientId row = "r1"
    /\ al_eventId (arow_alert alert) = Some (row_id row)
    /\ ("d1" <> "" -> al_documentId (arow_alert alert) = Some "d1")
    /\ ("d1" = "" -> al_documentId (arow_alert alert) = None)
    /\ ("r1" <> "" -> al_recipientId (arow_alert alert) = Some "r1")
    /\ ("r1" = "" -> al_recipientId (arow_alert alert) = None)
    /\ alert_of_report download alert.
Proof.
  apply (alerting_report_writes_event_and_alert demo_env download
           (from_ip "198.51.100.1") (report_body (Val "d1") (Val "r1"))
           boot "d1" "r1");
    first [left; reflexivity | reflexivity].
Defined.

Lemma refused_alert_leaves_the_event_witness :
  let w := after_one_download_repeating in
  let out := run repeating_env download_report w in
  unused (randomUUID repeating_env (draws w)) (map row_id (events (db w)))
  /\ In (randomUUID repeating_env (S (draws w)))
        (map (fun a => al_id (arow_alert a)) (alerts (db w)))
  /\ exists row,
       fst out = Some error_500
       /\ events (db (snd out)) = events (db w) ++ [row]
       /\ row_type row = report_type download
       /\ alerts (db (snd out)) = alerts (db w)
       /\ sent (snd out) = sent w.
Proof.
  cbv zeta.
  assert (H1 : unused (randomUUID repeating_env
                         (draws after_one_download_repeating))
                      (map row_id (events (db after_one_download_repeating))))
    by (vm_compute; reflexivity).
  assert (H2 : In (randomUUID repeating_env
                     (S (draws after_one_download_repeating)))
                  (map (fun a => al_id (arow_alert a))
                       (alerts (db after_one_download_repeating))))
    by (vm_compute; left; reflexivity).
  split; [exact H1|]. split; [exact H2|].
  apply (refused_alert_leaves_the_event repeating_env download
           (from_ip "198.51.100.1") (report_body (Val "d1") (Val "r1"))
           after_one_download_repeating "d1" "r1");
    first [left; reflexivity | reflexivity | assumption].
Defined.

Lemma beacon_keeps_the_senders_clock_witness :
  let t := 1700000000123 in
  let out := run demo_env (beacon_with_ts (Val (string_of_Z t))) boot in
  fst out = Some pixel_response
  /\ exists row,
       events (db (snd out)) = events (db boot) ++ [row]
       /\ row_type row = pixel_beacon
       /\ row_documentId row = "d1"
       /\ row_recipientId row = "r1"
       /\ row_timestamp row = t.
Proof.
  apply (beacon_keeps_the_senders_clock demo_env (from_ip "198.51.100.1")
           "d1" "r1" Undefined 1700000000123 boot).
  - discriminate.
  - unfold MAX_TIME. lia.
  - reflexivity.
Defined.

Lemma forwarded_document_stays_critical_witness :
  let w1 := snd (run demo_env
                   (POST_track forward (from_ip "198.51.100.1")
                      (forward_body (Val "d1") (Val "r1") (Val "ext@x.com")))
                   boot) in
  let later := snd (run demo_env download_report w1) in
  steps demo_env w1 later
  /\ reported_risk_level demo_env "d1" later = Some "CRITICAL".
Proof.
  cbv zeta.
  match goal with |- ?S /\ _ => assert (H : S) by apply one_step end.
  split; [exact H|].
  apply (forwarded_document_stays_critical demo_env (from_ip "198.51.100.1")
           (forward_body (Val "d1") (Val "r1") (Val "ext@x.com"))
           boot "d1" "r1");
    first [exact H | reflexivity].
Defined.

Lemma queries_only_read_witness :
  let out := run demo_env GET_alerts after_one_download in
  is_query GET_alerts = true
  /\ (exists res, fst out = Some res /\ status res = 200)
  /\ db (snd out) = db after_one_download
  /\ wss_clients (snd out) = wss_clients after_one_download
  /\ clients (snd out) = clients after_one_download
  /\ sent (snd out) = sent after_one_download
  /\ log (snd out) = log after_one_download
  /\ draws (snd out) = draws after_one_download.
Proof.
  cbv zeta. split; [reflexivity|].
  apply (queries_only_read demo_env GET_alerts after_one_download).
  reflexivity.
Defined.

Lemma registry_stays_consistent_witness :
  steps demo_env boot one_dashboard
  /\ registry_ok boot
  /\ registry_ok one_dashboard.
Proof.
  assert (H1 : steps demo_env boot one_dashboard) by apply one_step.
  assert (H2 : registry_ok boot) by (split; [constructor | intros c []]).
  split; [exact H1|]. split; [exact H2|].
  exact (registry_stays_consistent demo_env boot one_dashboard H1 H2).
Defined.

Lemma closed_socket_hears_nothing_witness :
  let w1 := snd (run demo_env (WS_close 7) one_dashboard) in
  is_socket_event download_report = false
  /\ (In 7%nat (clients w1) -> False)
  /\ (In 7%nat (map sock_id (wss_clients w1)) -> False)
  /\ exists added,
       sent (snd (run demo_env download_report w1)) = sent w1 ++ added
       /\ Forall (fun p => fst p <> 7%nat) added.
Proof.
  cbv zeta. split; [reflexivity|].
  apply (closed_socket_hears_nothing demo_env 7%nat one_dashboard
           download_report).
  reflexivity.
Defined.

Lemma forwarded_header_names_the_client_witness :
  x_forwarded_for proxied_request = Val "203.0.113.9, 10.0.0.1"
  /\ before_comma "203.0.113.9, 10.0.0.1" <> ""
  /\ getClientIP proxied_request = before_comma "203.0.113.9, 10.0.0.1"
  /\ prefix (getClientIP proxied_request) "203.0.113.9, 10.0.0.1" = true
  /\ includes "," (getClientIP proxied_request) = false.
Proof.
  assert (H : before_comma "203.0.113.9, 10.0.0.1" <> "")
    by (vm_compute; discriminate).
  split; [reflexivity|]. split; [exact H|].
  apply (forwarded_header_names_the_client proxied_request
           "203.0.113.9, 10.0.0.1"); [reflexivity|exact H].
Defined.
